(** * Server-crash monitoring dashboard: shallow embedding and verification

    The development embeds the TypeScript sources of the dashboard

    - [src/app/api/logs/stream/route.ts]   (line framing, [parseAgentLog])
    - [src/components/AgentWorkflowDashboard.tsx] (agent state machine)
    - [src/app/api/monitoring/route.ts]    (monitoring supervisor)
    - [src/app/api/crash-test/route.ts]    (crash-test supervisor)
    - [src/app/api/incidents/route.ts], [src/app/api/stats/route.ts]
      (incident store reads, [calculateStats])

    as Rocq functions, and states the properties of the specification over
    them.  Part I holds the definitions, Part II the lemmas and theorems. *)

From Stdlib Require Import String Ascii List NArith ZArith Bool Lia.
From Stdlib Require Import Floats Uint63.
Import ListNotations.

(* ================================================================== *)
(** * Part I: definitions *)
(* ================================================================== *)

(** ** JavaScript strings

    A JavaScript string is a sequence of UTF-16 code units, and [includes],
    [split] and [trim] work on code units.  ASCII literals are written
    [js "..."]; characters outside ASCII are spelled out as code units. *)
Module JsString.

Definition jsstring : Type := list N.

Definition js (s : string) : jsstring :=
  map N_of_ascii (list_ascii_of_string s).

(** U+000A, the separator of [split('\n')]. *)
Definition LF : N := 10%N.

Fixpoint str_eqb (a b : jsstring) : bool :=
  match a, b with
  | [], [] => true
  | x :: a', y :: b' => N.eqb x y && str_eqb a' b'
  | _, _ => false
  end.

(** [s.startsWith(p)] *)
Fixpoint startsWith (s p : jsstring) : bool :=
  match p, s with
  | [], _ => true
  | _ :: _, [] => false
  | y :: p', x :: s' => N.eqb x y && startsWith s' p'
  end.

(** [s.includes(p)]: [p] occurs in [s] as a contiguous run of code units. *)
Fixpoint includes (s p : jsstring) : bool :=
  startsWith s p ||
  match s with
  | [] => false
  | _ :: s' => includes s' p
  end.

(** [s.split('\n')]: always at least one piece; ["".split('\n')] is [[""]]. *)
Fixpoint split_nl (s : jsstring) : list jsstring :=
  match s with
  | [] => [[]]
  | c :: rest =>
      if N.eqb c LF then [] :: split_nl rest
      else match split_nl rest with
           | piece :: pieces => (c :: piece) :: pieces
           | [] => [[c]]
           end
  end.

(** [pieces.join('\n')] *)
Fixpoint join_nl (pieces : list jsstring) : jsstring :=
  match pieces with
  | [] => []
  | [p] => p
  | p :: rest => p ++ LF :: join_nl rest
  end.

(** Every line followed by a newline. *)
Definition unlines (lines : list jsstring) : jsstring :=
  List.concat (map (fun l => l ++ [LF]) lines).

(** The code units that [trim] strips: ECMAScript WhiteSpace and
    LineTerminator. *)
Definition is_whitespace (c : N) : bool :=
  ((9 <=? c) && (c <=? 13) || (c =? 32) || (c =? 160) || (c =? 5760)
   || (8192 <=? c) && (c <=? 8202) || (c =? 8232) || (c =? 8233)
   || (c =? 8239) || (c =? 8287) || (c =? 12288) || (c =? 65279))%N.

Fixpoint dropWhile {A} (f : A -> bool) (l : list A) : list A :=
  match l with
  | [] => []
  | x :: l' => if f x then dropWhile f l' else l
  end.

Definition trimStart (s : jsstring) : jsstring := dropWhile is_whitespace s.
Definition trimEnd (s : jsstring) : jsstring :=
  rev (dropWhile is_whitespace (rev s)).
Definition trim (s : jsstring) : jsstring := trimEnd (trimStart s).

(** Truthiness of a string: the empty string is the only falsy one. *)
Definition truthy (s : jsstring) : bool :=
  match s with [] => false | _ :: _ => true end.

End JsString.
Import JsString.

(** ** Severity levels shared by the stream route and the dashboard *)
Module Log.

Inductive Level := info | warn | error | success.

End Log.

(** ** Line framer: the [data] handlers of [/api/logs/stream] *)
Module LineFramer.

(** The two pipes of the subprocess; [stdout] lines go out as [raw] events
    with level [info], [stderr] lines as [error] events with level [error]. *)
Inductive Pipe := Stdout | Stderr.

Inductive EventName := ev_connected | ev_raw | ev_error | ev_process_exit.

(** What [sendEvent(event, data)] writes to the response stream. *)
Record SseEvent := {
  event : EventName;
  message : jsstring;
  timestamp : N;
  level : Log.Level
}.

(** [output.split('\n').filter(line => line.trim())] *)
Definition framed_lines (output : jsstring) : list jsstring :=
  filter (fun line => truthy (trim line)) (split_nl output).

(** One [data] event.  [output] is [data.toString()], the decoded text of the
    chunk, and [now] the clock reading taken by [new Date()]. *)
Definition on_data (p : Pipe) (now : N) (output : jsstring) : list SseEvent :=
  map (fun line =>
         match p with
         | Stdout => {| event := ev_raw; message := line;
                        timestamp := now; level := Log.info |}
         | Stderr => {| event := ev_error; message := line;
                        timestamp := now; level := Log.error |}
         end)
      (framed_lines output).

(** A stream is the list of its chunks with their arrival times.  Nothing is
    kept between two [data] events, and the handlers register no [end] or
    [close] listener on the pipes. *)
Fixpoint run (p : Pipe) (chunks : list (N * jsstring)) : list SseEvent :=
  match chunks with
  | [] => []
  | (now, output) :: rest => on_data p now output ++ run p rest
  end.

(** The framed lines of a stream, in emission order. *)
Definition emitted (p : Pipe) (chunks : list (N * jsstring)) : list jsstring :=
  map message (run p chunks).

(** The text of the whole stream. *)
Definition stream_text (chunks : list (N * jsstring)) : jsstring :=
  List.concat (map snd chunks).

(** A chunk made of complete lines only: it ends with a newline and none of
    its lines is empty or whitespace-only. *)
Definition whole_lines (output : jsstring) : bool :=
  match rev (split_nl output) with
  | [] :: lines => forallb (fun line => truthy (trim line)) lines
  | _ => false
  end.

End LineFramer.

(** ** The agent state machine of [AgentWorkflowDashboard.tsx] *)
Module Dashboard.

Inductive Status := idle | working | completed | error.
Inductive ServerStatus := up | down | unknown.

Definition Status_eqb (a b : Status) : bool :=
  match a, b with
  | idle, idle | working, working | completed, completed | error, error => true
  | _, _ => false
  end.

Definition ServerStatus_eqb (a b : ServerStatus) : bool :=
  match a, b with
  | up, up | down, down | unknown, unknown => true
  | _, _ => false
  end.

(** [interface AgentStatus]; optional fields are options. *)
Record AgentStatus := {
  id : jsstring;
  name : jsstring;
  status : Status;
  currentTask : option jsstring;
  lastUpdate : option N;
  output : option (list jsstring)
}.

(** [Partial<AgentStatus>]: every field may be absent. *)
Record Partial_AgentStatus := {
  u_id : option jsstring;
  u_name : option jsstring;
  u_status : option Status;
  u_currentTask : option jsstring;
  u_lastUpdate : option N;
  u_output : option (list jsstring)
}.

(** The object literal [{ status: s, currentTask: t }] of the call sites. *)
Definition status_task (s : Status) (t : jsstring) : Partial_AgentStatus :=
  {| u_id := None; u_name := None; u_status := Some s;
     u_currentTask := Some t; u_lastUpdate := None; u_output := None |}.

Record ServerLog := {
  timestamp : N;
  level : Log.Level;
  message : jsstring;
  agent : option jsstring
}.

(** The data of a [log] event, as far as [updateAgentFromLog] reads it. *)
Record LogData := {
  ld_agent : option jsstring;
  ld_message : jsstring;
  ld_type : option jsstring;
  ld_status : option jsstring;
  ld_level : Log.Level
}.

(** The callbacks handed to [setTimeout], one constructor per call site
    (source line in the comment); [log_diagnosis_next] closes over
    [logData.status]. *)
Inductive Task :=
| raw_prepare_executor                      (* l.307, 1500 ms *)
| raw_complete_executor                     (* l.340, 1000 ms *)
| raw_workflow_complete                     (* l.356, 1500 ms *)
| raw_workflow_reset                        (* l.358, 2000 ms *)
| log_reset_agents                          (* l.431, 3000 ms *)
| log_diagnosis_next (st : option jsstring) (* l.462, 2000 ms *)
| log_repair_done                           (* l.483, 1500 ms *)
| log_executor_idle                         (* l.495, 3000 ms *)
| log_evaluation_done                       (* l.510, 1000 ms *)
| log_reset_after_evaluation                (* l.523, 3000 ms *)
| log_refresh_flashcards.                   (* l.544, 1000 ms *)

(** The component state read by the claims, the clock, and the pending
    timers, earliest first.  The [flashcards] state and the polling interval
    only feed the incident panel and are left out. *)
Record Dash := {
  agents : list AgentStatus;
  serverLogs : list ServerLog;
  isMonitoring : bool;
  serverStatus : ServerStatus;
  currentWorkflow : option jsstring;
  clock : N;
  timers : list (N * Task)
}.

(** Handlers are state transformers; [a ;; b] runs [a], then [b]. *)
Definition Action : Type := Dash -> Dash.
Definition skip : Action := fun d => d.
Definition seq (a b : Action) : Action := fun d => b (a d).
Notation "a ;; b" := (seq a b) (at level 61, right associativity).

Definition setAgents (f : list AgentStatus -> list AgentStatus) : Action :=
  fun d => {| agents := f (agents d); serverLogs := serverLogs d;
              isMonitoring := isMonitoring d; serverStatus := serverStatus d;
              currentWorkflow := currentWorkflow d; clock := clock d;
              timers := timers d |}.

Definition setServerLogs (f : list ServerLog -> list ServerLog) : Action :=
  fun d => {| agents := agents d; serverLogs := f (serverLogs d);
              isMonitoring := isMonitoring d; serverStatus := serverStatus d;
              currentWorkflow := currentWorkflow d; clock := clock d;
              timers := timers d |}.

Definition setIsMonitoring (b : bool) : Action :=
  fun d => {| agents := agents d; serverLogs := serverLogs d;
              isMonitoring := b; serverStatus := serverStatus d;
              currentWorkflow := currentWorkflow d; clock := clock d;
              timers := timers d |}.

Definition setServerStatus (s : ServerStatus) : Action :=
  fun d => {| agents := agents d; serverLogs := serverLogs d;
              isMonitoring := isMonitoring d; serverStatus := s;
              currentWorkflow := currentWorkflow d; clock := clock d;
              timers := timers d |}.

Definition setCurrentWorkflow (w : option jsstring) : Action :=
  fun d => {| agents := agents d; serverLogs := serverLogs d;
              isMonitoring := isMonitoring d; serverStatus := serverStatus d;
              currentWorkflow := w; clock := clock d;
              timers := timers d |}.

Definition set_clock (t : N) : Action :=
  fun d => {| agents := agents d; serverLogs := serverLogs d;
              isMonitoring := isMonitoring d; serverStatus := serverStatus d;
              currentWorkflow := currentWorkflow d; clock := t;
              timers := timers d |}.

Definition set_timers (f : list (N * Task) -> list (N * Task)) : Action :=
  fun d => {| agents := agents d; serverLogs := serverLogs d;
              isMonitoring := isMonitoring d; serverStatus := serverStatus d;
              currentWorkflow := currentWorkflow d; clock := clock d;
              timers := f (timers d) |}.

(** Timers fire in the order of their due times, and in the order of
    registration when two are due together. *)
Fixpoint insert_timer (t : N * Task) (l : list (N * Task)) : list (N * Task) :=
  match l with
  | [] => [t]
  | t' :: l' => if (fst t <? fst t')%N then t :: l else t' :: insert_timer t l'
  end.

(** [setTimeout(task, delay)] *)
Definition setTimeout (task : Task) (delay : N) : Action :=
  fun d => set_timers (insert_timer ((clock d + delay)%N, task)) d.

Definition supervisor : jsstring := js "supervisor".
Definition executor : jsstring := js "executor".
Definition evaluator : jsstring := js "evaluator".

(** The initial value of [useState<AgentStatus[]>]. *)
Definition initial_agents : list AgentStatus :=
  [ {| id := supervisor; name := js "Supervisor Agent"; status := idle;
       currentTask := Some (js "Monitoring server health...");
       lastUpdate := None; output := Some [] |};
    {| id := executor; name := js "Executor Agent"; status := idle;
       currentTask := Some (js "Awaiting repair instructions...");
       lastUpdate := None; output := Some [] |};
    {| id := evaluator; name := js "Evaluator Agent"; status := idle;
       currentTask := Some (js "Ready to verify repairs...");
       lastUpdate := None; output := Some [] |} ].

Definition initial : Dash :=
  {| agents := initial_agents; serverLogs := []; isMonitoring := false;
     serverStatus := unknown; currentWorkflow := None; clock := 0%N;
     timers := [] |}.

Definition getIdleTask (agentId : jsstring) : jsstring :=
  if str_eqb agentId supervisor then js "Monitoring server health..."
  else if str_eqb agentId executor then js "Awaiting repair instructions..."
  else if str_eqb agentId evaluator then js "Ready to verify repairs..."
  else js "Idle".

Definition or_else {A} (o : option A) (dflt : A) : A :=
  match o with Some x => x | None => dflt end.

Definition or_keep {A} (o current : option A) : option A :=
  match o with Some x => Some x | None => current end.

(** [{ ...agent, ...updates, lastUpdate: new Date().toISOString() }] *)
Definition merge (agent : AgentStatus) (updates : Partial_AgentStatus)
    (now : N) : AgentStatus :=
  {| id := or_else (u_id updates) (id agent);
     name := or_else (u_name updates) (name agent);
     status := or_else (u_status updates) (status agent);
     currentTask := or_keep (u_currentTask updates) (currentTask agent);
     lastUpdate := Some now;
     output := or_keep (u_output updates) (output agent) |}.

(** The updater handed to [setAgents] by [updateAgentStatus]. *)
Definition updated (agentId : jsstring) (updates : Partial_AgentStatus)
    (now : N) (prev : list AgentStatus) : list AgentStatus :=
  map (fun agent =>
         if str_eqb (id agent) agentId then merge agent updates now
         else agent)
      prev.

Definition updateAgentStatus (agentId : jsstring)
    (updates : Partial_AgentStatus) : Action :=
  fun d => setAgents (updated agentId updates (clock d)) d.

(** [prev.map(agent => ({ ...agent, status: 'idle',
                          currentTask: getIdleTask(agent.id) }))] *)
Definition reset_agents (prev : list AgentStatus) : list AgentStatus :=
  map (fun agent =>
         {| id := id agent; name := name agent; status := idle;
            currentTask := Some (getIdleTask (id agent));
            lastUpdate := lastUpdate agent; output := output agent |})
      prev.

(** [prev.slice(-n)] *)
Definition slice_last {A} (n : nat) (l : list A) : list A :=
  skipn (length l - n) l.

Definition addServerLog (lvl : Log.Level) (msg : jsstring)
    (ag : option jsstring) : Action :=
  fun d =>
    setServerLogs
      (fun prev => slice_last 50 prev ++
         [ {| timestamp := clock d; level := lvl; message := msg;
              agent := ag |} ]) d.

(** Code units of the emoji used by the patterns and task texts. *)
Definition robot : jsstring := [0xD83E; 0xDD16]%N.       (* U+1F916 *)
Definition siren : jsstring := [0xD83D; 0xDEA8]%N.       (* U+1F6A8 *)
Definition check_mark : jsstring := [0x2705]%N.          (* U+2705 *)
Definition wrench : jsstring := [0xD83D; 0xDD27]%N.      (* U+1F527 *)
Definition collision : jsstring := [0xD83D; 0xDCA5]%N.   (* U+1F4A5 *)

(** What each timer callback does when it fires. *)
Definition run_task (task : Task) : Action :=
  match task with
  | raw_prepare_executor =>
      updateAgentStatus executor
        (status_task working (js "Preparing repair strategy..."))
  | raw_complete_executor =>
      updateAgentStatus executor
        (status_task completed (js "Repair execution complete"))
  | raw_workflow_complete =>
      setCurrentWorkflow (Some (js "Monitoring cycle complete")) ;;
      setTimeout raw_workflow_reset 2000
  | raw_workflow_reset =>
      setCurrentWorkflow None ;;
      setAgents reset_agents
  | log_reset_agents => setAgents reset_agents
  | log_diagnosis_next st =>
      if match st with Some s => str_eqb s (js "DOWN") | None => false end
      then updateAgentStatus executor
             (status_task working (js "Preparing repair action..."))
      else updateAgentStatus evaluator
             (status_task working (js "Verifying system health..."))
  | log_repair_done =>
      updateAgentStatus executor
        (status_task completed (js "Repair commands executed")) ;;
      updateAgentStatus evaluator
        (status_task working (js "Verifying repair success...")) ;;
      setTimeout log_executor_idle 3000
  | log_executor_idle =>
      updateAgentStatus executor
        (status_task idle (js "Awaiting repair instructions..."))
  | log_evaluation_done =>
      updateAgentStatus evaluator
        (status_task completed (js "Flashcard created successfully")) ;;
      updateAgentStatus supervisor
        (status_task completed (js "Monitoring cycle complete")) ;;
      setTimeout log_reset_after_evaluation 3000
  | log_reset_after_evaluation => setAgents reset_agents
  | log_refresh_flashcards => skip
  end.

(** The classifier of [raw] lines: an [if / else if] chain, first match
    wins. *)
Definition detectAgentFromRawMessage (message : jsstring) : Action :=
  if includes message robot && includes message (js "STARTING") then
    setCurrentWorkflow (Some (js "Continuous monitoring initiated")) ;;
    updateAgentStatus supervisor
      (status_task working (js "Initializing monitoring cycle..."))
  else if includes message (js "Supervisor:")
          || includes message (js "Starting monitoring cycle")
          || includes message (js "Analyzing") then
    updateAgentStatus supervisor
      (status_task working (js "Analyzing server health..."))
  else if includes message (js "LLM diagnosis:")
          || includes message (js "confidence:") then
    updateAgentStatus supervisor
      (status_task working
         (if includes message (js "DOWN")
          then siren ++ js " Server DOWN detected!"
          else check_mark ++ js " Server UP confirmed")) ;;
    (if includes message (js "DOWN") then
       setServerStatus down ;;
       setTimeout raw_prepare_executor 1500
     else if includes message (js "UP") then setServerStatus up
     else skip)
  else if includes message (js "Executor:") || includes message (js "PM2")
          || includes message (js "restart")
          || includes message (js "repair") then
    updateAgentStatus executor
      (status_task working
         (if includes message (js "success")
          then check_mark ++ js " Repair completed!"
          else wrench ++ js " Executing repair...")) ;;
    updateAgentStatus supervisor
      (status_task completed (js "Analysis complete - repair needed"))
  else if includes message (js "POST-REPAIR")
          || includes message (js "Verification")
          || includes message (js "Testing endpoint") then
    updateAgentStatus evaluator
      (status_task working (js "Verifying repair success...")) ;;
    setTimeout raw_complete_executor 1000
  else if includes message (js "PASSED")
          || includes message (js "Flashcard created")
          || includes message (js "SUMMARY") then
    updateAgentStatus evaluator
      (status_task completed (check_mark ++ js " Verification complete!")) ;;
    setTimeout raw_workflow_complete 1500
  else if includes message collision || includes message (js "CRASH")
          || includes message (js "Stopping server") then
    addServerLog Log.warn (collision ++ js " " ++ message) None ;;
    setServerStatus down
  else if includes message (js "Agent PID:")
          || includes message (js "monitoring started") then
    addServerLog Log.success (check_mark ++ js " " ++ message) None
  else skip.

(** [`${logData.status}`] *)
Definition shown (o : option jsstring) : jsstring := or_else o (js "undefined").

Definition is_type (logData : LogData) (t : string) : bool :=
  match ld_type logData with Some ty => str_eqb ty (js t) | None => false end.

(** The classifier of structured [log] events: the pattern chain on the
    message, then the legacy chain on [logData.type]. *)
Definition updateAgentFromLog (logData : LogData) : Action :=
  let agentId := ld_agent logData in
  let message := ld_message logData in
  (if includes message (js "Supervisor:") || includes message (js "Analyzing")
      || includes message (js "LLM diagnosis:") then
     updateAgentStatus supervisor
       (status_task working
          (if includes message (js "DOWN") then js "Server issues detected!"
           else js "Analyzing server health...")) ;;
     (if includes message (js "UP") then setServerStatus up else skip) ;;
     (if includes message (js "DOWN") then setServerStatus down else skip)
   else if includes message (js "Executor:") || includes message (js "PM2")
           || includes message (js "restart")
           || includes message (js "repair") then
     updateAgentStatus executor
       (status_task working
          (if includes message (js "success") then js "Repair completed!"
           else js "Executing repair commands...")) ;;
     updateAgentStatus supervisor
       (status_task completed (js "Analysis complete - repair needed"))
   else if includes message (js "Verification")
           || includes message (js "verified")
           || includes message (js "POST-REPAIR") then
     updateAgentStatus evaluator
       (status_task working (js "Verifying repair success...")) ;;
     updateAgentStatus executor
       (status_task completed (js "Repair actions executed"))
   else if includes message (js "PASSED")
           || includes message (js "Flashcard") then
     updateAgentStatus evaluator
       (status_task completed (js "Verification complete!")) ;;
     setTimeout log_reset_agents 3000
   else if includes message (js "Starting monitoring cycle")
           || includes message robot then
     setCurrentWorkflow (Some (js "AI monitoring cycle initiated")) ;;
     updateAgentStatus supervisor
       (status_task working (js "Starting health check..."))
   else skip) ;;
  (if match agentId with
      | None => true
      | Some a => negb (truthy a) || str_eqb a (js "system")
      end
   then skip
   else if is_type logData "diagnosis" then
     updateAgentStatus supervisor
       (status_task working
          (js "Diagnosing server (" ++ shown (ld_status logData) ++ js ")")) ;;
     setServerStatus
       (if match ld_status logData with
           | Some s => str_eqb s (js "UP")
           | None => false
           end
        then up else down) ;;
     setTimeout (log_diagnosis_next (ld_status logData)) 2000
   else if is_type logData "repair" then
     updateAgentStatus executor
       (status_task working (js "Executing repair commands...")) ;;
     setTimeout log_repair_done 1500
   else if is_type logData "evaluation" then
     updateAgentStatus evaluator
       (status_task working (js "Creating flashcard record...")) ;;
     setTimeout log_evaluation_done 1000
   else if is_type logData "workflow" then
     (if includes message (js "Starting monitoring cycle") then
        setCurrentWorkflow (Some (js "Monitoring cycle initiated")) ;;
        updateAgentStatus supervisor
          (status_task working (js "Collecting system metrics..."))
      else if includes message (js "MONITORING CYCLE SUMMARY") then
        setCurrentWorkflow None ;;
        setTimeout log_refresh_flashcards 1000
      else skip)
   else skip).

(** *** Listeners and button handlers *)

(** The outcome of a [fetch] as the handlers see it: the [success] flag and
    the [error] text of the JSON envelope, or a rejected promise. *)
Inductive Fetched :=
| envelope (ok : bool) (err : jsstring)
| rejected.

Definition on_open : Action :=
  addServerLog Log.success (js "Connected to real-time log stream") None.

Definition on_log (logData : LogData) : Action :=
  updateAgentFromLog logData ;;
  addServerLog (ld_level logData) (ld_message logData) (ld_agent logData).

Definition on_raw (lvl : Log.Level) (msg : jsstring) : Action :=
  detectAgentFromRawMessage msg ;;
  addServerLog lvl msg None.

Definition on_error_event (msg : jsstring) : Action :=
  addServerLog Log.error msg None.

Definition on_process_exit (msg : jsstring) : Action :=
  addServerLog Log.warn msg None ;;
  setIsMonitoring false ;;
  setCurrentWorkflow None.

Definition on_connection_lost : Action :=
  addServerLog Log.error (js "Lost connection to log stream") None.

Definition fetchMonitoringStatus (isRunning : bool)
    (lastActivity : option jsstring) : Action :=
  fun d =>
    (setIsMonitoring isRunning ;;
     match lastActivity with
     | Some l =>
         if negb (isMonitoring d) && truthy l
         then addServerLog Log.info l (Some (js "system"))
         else skip
     | None => skip
     end) d.

Definition handleStartMonitoring (r : Fetched) : Action :=
  match r with
  | envelope true _ =>
      setIsMonitoring true ;;
      addServerLog Log.success (js "Continuous monitoring started") None ;;
      setCurrentWorkflow (Some (js "Continuous monitoring active"))
  | envelope false e =>
      addServerLog Log.error (js "Failed to start monitoring: " ++ e) None
  | rejected => addServerLog Log.error (js "Failed to start monitoring") None
  end.

Definition handleStopMonitoring (r : Fetched) : Action :=
  match r with
  | envelope true _ =>
      setIsMonitoring false ;;
      addServerLog Log.info (js "Monitoring stopped") None ;;
      setCurrentWorkflow None ;;
      setAgents reset_agents
  | envelope false _ => skip
  | rejected => addServerLog Log.error (js "Failed to stop monitoring") None
  end.

(** [handleTriggerCheck] up to its [await], and after it. *)
Definition handleTriggerCheck_begin : Action :=
  setCurrentWorkflow (Some (js "Single check in progress...")) ;;
  addServerLog Log.info (js "Triggering single agentic check") None.

Definition handleTriggerCheck_end (r : Fetched) : Action :=
  match r with
  | envelope true _ =>
      addServerLog Log.success (js "Single check completed successfully") None ;;
      setCurrentWorkflow None
  | envelope false e =>
      addServerLog Log.error (js "Single check failed: " ++ e) None ;;
      setCurrentWorkflow None
  | rejected =>
      addServerLog Log.error (js "Single check failed") None ;;
      setCurrentWorkflow None
  end.

(** *** Timers *)

Fixpoint remove_nth {A} (k : nat) (l : list A) : list A :=
  match l, k with
  | [], _ => []
  | _ :: l', O => l'
  | x :: l', S k' => x :: remove_nth k' l'
  end.

(** The [k]-th pending timer fires: it leaves the queue and its callback
    runs, the clock standing at its due time or later. *)
Definition fire (k : nat) : Action :=
  fun d =>
    match nth_error (timers d) k with
    | Some (due, task) =>
        (set_timers (remove_nth k) ;;
         set_clock (N.max (clock d) due) ;;
         run_task task) d
    | None => d
    end.

(** A bound on the callbacks a timer stands for: itself and the timers it
    registers when it fires. *)
Definition nested (task : Task) : nat :=
  match task with
  | raw_workflow_complete | log_repair_done | log_evaluation_done => 2
  | _ => 1
  end.

Definition pending (d : Dash) : nat :=
  fold_right (fun t n => nested (snd t) + n) 0 (timers d).

(** *** Any interleaving: the transition system of the component *)

Inductive Input :=
| sse_open
| sse_log (logData : LogData)
| sse_raw (lvl : Log.Level) (msg : jsstring)
| sse_error (msg : jsstring)
| sse_process_exit (msg : jsstring)
| sse_lost
| status_polled (isRunning : bool) (lastActivity : option jsstring)
| start_clicked (r : Fetched)
| stop_clicked (r : Fetched)
| check_clicked
| check_returned (r : Fetched)
| timer_fires (k : nat)
| time_passes (dt : N).

Definition step (i : Input) : Action :=
  match i with
  | sse_open => on_open
  | sse_log logData => on_log logData
  | sse_raw lvl msg => on_raw lvl msg
  | sse_error msg => on_error_event msg
  | sse_process_exit msg => on_process_exit msg
  | sse_lost => on_connection_lost
  | status_polled r l => fetchMonitoringStatus r l
  | start_clicked r => handleStartMonitoring r
  | stop_clicked r => handleStopMonitoring r
  | check_clicked => handleTriggerCheck_begin
  | check_returned r => handleTriggerCheck_end r
  | timer_fires k => fire k
  | time_passes dt => fun d => set_clock (clock d + dt)%N d
  end.

(** The states the component can be in: the initial one and whatever a
    listener, a handler or a timer makes of a reachable one. *)
Inductive reachable : Dash -> Prop :=
| reach_initial : reachable initial
| reach_step : forall i d, reachable d -> reachable (step i d).

(** The fixed roles, in display order. *)
Definition roles : list jsstring := [supervisor; executor; evaluator].

Definition all_statuses : list Status := [idle; working; completed; error].

(** How many of the four statuses an agent has. *)
Definition statuses_held (a : AgentStatus) : nat :=
  List.length (filter (Status_eqb (status a)) all_statuses).

(** *** Timed runs: lines arrive at given times, timers fire when due *)

(** The earliest timer is due at time [t] or before. *)
Definition timer_due (t : N) (d : Dash) : bool :=
  match timers d with
  | (due, _) :: _ => (due <=? t)%N
  | [] => false
  end.

(** A [raw] line reaches the classifier at time [t]. *)
Definition arrive (t : N) (msg : jsstring) : Action :=
  fun d => (set_clock (N.max (clock d) t) ;; detectAgentFromRawMessage msg) d.

(** The event loop, one callback per turn.  Timers fire at their due time;
    a timer that is due by the time the next line arrives fires before it;
    once the lines are used up the remaining timers fire, earliest first.
    The result lists the state after every callback: the updates made
    inside one callback reach an observer together. *)
Fixpoint run (fuel : nat) (lines : list (N * jsstring)) (d : Dash)
    : list Dash :=
  match fuel with
  | O => []
  | S fuel' =>
      match lines with
      | (t, msg) :: rest =>
          if timer_due t d
          then fire 0 d :: run fuel' lines (fire 0 d)
          else arrive t msg d :: run fuel' rest (arrive t msg d)
      | [] =>
          match timers d with
          | _ :: _ => fire 0 d :: run fuel' [] (fire 0 d)
          | [] => []
          end
      end
  end.

(** Turns that suffice: a line takes one and registers at most one timer,
    which stands for at most two callbacks. *)
Definition turns (lines : list (N * jsstring)) (d : Dash) : nat :=
  3 * List.length lines + pending d.

(** The states the dashboard goes through, from the initial one, when the
    lines arrive at the given times and every timer is left to fire. *)
Definition scenario (lines : list (N * jsstring)) : list Dash :=
  initial :: run (turns lines initial) lines initial.

(** Arrival times from the delays between successive lines. *)
Fixpoint arrivals (start : N) (lines : list (N * jsstring))
    : list (N * jsstring) :=
  match lines with
  | [] => []
  | (gap, msg) :: rest =>
      ((start + gap)%N, msg) :: arrivals (start + gap)%N rest
  end.

(** *** Observations on a run *)

Definition statusOf (agentId : jsstring) (d : Dash) : option Status :=
  option_map status (find (fun a => str_eqb (id a) agentId) (agents d)).

Definition option_eqb {A} (eqb : A -> A -> bool) (a b : option A) : bool :=
  match a, b with
  | Some x, Some y => eqb x y
  | None, None => true
  | _, _ => false
  end.

(** The successive values of an observation, repetitions left out. *)
Fixpoint changes {A} (eqb : A -> A -> bool) (l : list A) : list A :=
  match l with
  | [] => []
  | x :: l' =>
      match l' with
      | y :: _ => if eqb x y then changes eqb l' else x :: changes eqb l'
      | [] => [x]
      end
  end.

Definition status_history (agentId : jsstring) (run : list Dash)
    : list (option Status) :=
  changes (option_eqb Status_eqb) (map (statusOf agentId) run).

Definition server_history (run : list Dash) : list ServerStatus :=
  changes ServerStatus_eqb (map serverStatus run).

Definition workflow_history (run : list Dash) : list (option jsstring) :=
  changes (option_eqb str_eqb) (map currentWorkflow run).

(** What an observer reads off an agent card. *)
Definition card (a : AgentStatus) : jsstring * Status * option jsstring :=
  (id a, status a, currentTask a).

(** The ids and statuses of the agent cards, the server status and the
    workflow marker: what the claims observe of a state. *)
Definition shows (d : Dash) (sup exe eva : Status) (srv : ServerStatus)
    (wf : option jsstring) : Prop :=
  map (fun a => (id a, status a)) (agents d)
    = [(supervisor, sup); (executor, exe); (evaluator, eva)]
  /\ serverStatus d = srv /\ currentWorkflow d = wf.

(** The same with the clock and the pending timers. *)
Definition stands (d : Dash) (sup exe eva : Status) (srv : ServerStatus)
    (wf : option jsstring) (now : N) (pend : list (N * Task)) : Prop :=
  shows d sup exe eva srv wf /\ clock d = now /\ timers d = pend.

(** The observations of a state side by side, and the histories read off a
    list of them. *)
Definition View : Type :=
  (option Status * option Status * option Status * ServerStatus
   * option jsstring)%type.

Definition view (d : Dash) : View :=
  (statusOf supervisor d, statusOf executor d, statusOf evaluator d,
   serverStatus d, currentWorkflow d).

Definition v_supervisor (v : View) : option Status :=
  let '(s, _, _, _, _) := v in s.
Definition v_executor (v : View) : option Status :=
  let '(_, e, _, _, _) := v in e.
Definition v_evaluator (v : View) : option Status :=
  let '(_, _, a, _, _) := v in a.
Definition v_server (v : View) : ServerStatus :=
  let '(_, _, _, srv, _) := v in srv.
Definition v_workflow (v : View) : option jsstring :=
  let '(_, _, _, _, wf) := v in wf.

(** What the repair scenario is expected to show: the histories of the
    server status, the three agents and the workflow marker.  The executor
    may be set to [working] once more by the repair-preparation timer when
    the lines come in quick succession. *)
Definition repair_histories (vs : list View) : Prop :=
  changes ServerStatus_eqb (map v_server vs) = [unknown; down]
  /\ changes (option_eqb Status_eqb) (map v_supervisor vs)
     = [Some idle; Some working; Some completed; Some idle]
  /\ (changes (option_eqb Status_eqb) (map v_executor vs)
      = [Some idle; Some working; Some completed; Some idle]
      \/ changes (option_eqb Status_eqb) (map v_executor vs)
         = [Some idle; Some working; Some completed; Some working; Some idle])
  /\ changes (option_eqb Status_eqb) (map v_evaluator vs)
     = [Some idle; Some working; Some completed; Some idle]
  /\ changes (option_eqb str_eqb) (map v_workflow vs)
     = [None; Some (js "Monitoring cycle complete"); None].

(** The rest of a run, [seen] being the views so far and [d] the current
    state: the histories are as expected, and the run ends with the three
    cards idle on their idle tasks and with no timer pending. *)
Definition ends_well (seen : list View) (d : Dash) (rest : list Dash) : Prop :=
  repair_histories (seen ++ map view rest)
  /\ map card (agents (last rest d)) = map card initial_agents
  /\ timers (last rest d) = [].

(** An action that leaves the ids of the agents, and their order, alone. *)
Definition keeps_ids (a : Action) : Prop :=
  forall d, map id (agents (a d)) = map id (agents d).

(** The four lines of the repair scenario, with the delay before each. *)
Definition repair_lines (g1 g2 g3 g4 : N) : list (N * jsstring) :=
  arrivals 0
    [ (g1, js "LLM diagnosis: DOWN confidence: 0.92");
      (g2, js "Executor: running PM2 restart");
      (g3, js "POST-REPAIR Verification passed");
      (g4, js "MONITORING CYCLE SUMMARY PASSED") ].

End Dashboard.

(** ** Child processes as the routes see them *)
Module Child.

Inductive Signal := SIGTERM | SIGKILL.

(** What [spawn(...)] does: it returns a [ChildProcess] (whose [pid] is
    undefined when the program could not be started; an [error] event
    follows), or it throws. *)
Inductive SpawnResult :=
| child (pid : option N)
| spawn_throws.

(** What [subprocess.kill(signal)] meets.  Node sets [killed] and returns
    true only when the signal was delivered; a process that is gone (ESRCH,
    or no handle left) makes it return false; another delivery error is
    emitted as an [error] event; an unsupported signal makes it throw. *)
Inductive KillResult :=
| delivered
| no_such_process
| not_permitted
| unsupported.

(** The fields of the [ChildProcess] object that the routes read.
    [killed] says that a signal was delivered by [kill], not that the
    process has ended. *)
Record ChildProcess := {
  pid : option N;
  killed : bool
}.

(** The calls made to the operating system, oldest first. *)
Inductive Effect :=
| spawned (pid : option N)
| signalled (pid : option N) (sig : Signal).

Definition is_spawn (e : Effect) : bool :=
  match e with spawned _ => true | signalled _ _ => false end.

Definition is_signal (sig : Signal) (e : Effect) : bool :=
  match e, sig with
  | signalled _ SIGTERM, SIGTERM | signalled _ SIGKILL, SIGKILL => true
  | _, _ => false
  end.

Definition spawn_count (log : list Effect) : nat :=
  List.length (filter is_spawn log).

Definition signal_count (sig : Signal) (log : list Effect) : nat :=
  List.length (filter (is_signal sig) log).

Definition mark_killed (p : ChildProcess) : ChildProcess :=
  {| pid := pid p; killed := true |}.

End Child.

(** ** The monitoring supervisor of [/api/monitoring] *)
Module Monitoring.
Import Child.

(** The module-level variables of the route, and the log of what was asked
    of the operating system.  [waiting] counts the [stopMonitoring] calls
    suspended in their two-second wait. *)
Record Supervisor := {
  monitoringProcess : option ChildProcess;
  isMonitoring : bool;
  processStartTime : option N;
  os_log : list Effect;
  waiting : nat
}.

Definition initial : Supervisor :=
  {| monitoringProcess := None; isMonitoring := false;
     processStartTime := None; os_log := []; waiting := 0 |}.

(** The JSON envelope and HTTP status of a response. *)
Record Response := {
  code : N;
  success : bool;
  error : option jsstring;
  message : option jsstring;
  processId : option N
}.

Definition AlreadyRunning : Response :=
  {| code := 200; success := false;
     error := Some (js "Monitoring is already running");
     message := None; processId := None |}.

Definition Started (p : option N) : Response :=
  {| code := 200; success := true; error := None;
     message := Some (js "Monitoring started successfully");
     processId := p |}.

Definition StartFailed : Response :=
  {| code := 500; success := false;
     error := Some (js "Failed to start monitoring process");
     message := None; processId := None |}.

Definition NotRunning : Response :=
  {| code := 200; success := false;
     error := Some (js "Monitoring is not running");
     message := None; processId := None |}.

Definition Stopped : Response :=
  {| code := 200; success := true; error := None;
     message := Some (js "Monitoring stopped successfully");
     processId := None |}.

Definition StopFailed : Response :=
  {| code := 500; success := false;
     error := Some (js "Failed to stop monitoring process");
     message := None; processId := None |}.

(** [isMonitoring = false; monitoringProcess = null]: the body of the [exit]
    and [error] listeners, and the end of [stopMonitoring]. *)
Definition clear (s : Supervisor) : Supervisor :=
  {| monitoringProcess := None; isMonitoring := false;
     processStartTime := processStartTime s; os_log := os_log s;
     waiting := waiting s |}.

Definition on_exit : Supervisor -> Supervisor := clear.
Definition on_error : Supervisor -> Supervisor := clear.

Definition startMonitoring (now : N) (sp : SpawnResult) (s : Supervisor)
    : Response * Supervisor :=
  if isMonitoring s then (AlreadyRunning, s)
  else
    match sp with
    | child p =>
        (Started p,
         {| monitoringProcess := Some {| pid := p; killed := false |};
            isMonitoring := true;
            processStartTime := Some now;
            os_log := os_log s ++ [spawned p];
            waiting := waiting s |})
    | spawn_throws => (StartFailed, clear s)
    end.

(** [monitoringProcess.kill(sig)] on the current handle; [None] when the
    call throws. *)
Definition kill (sig : Signal) (r : KillResult) (s : Supervisor)
    : option Supervisor :=
  match monitoringProcess s with
  | None => Some s
  | Some p =>
      match r with
      | delivered =>
          Some {| monitoringProcess := Some (mark_killed p);
                  isMonitoring := isMonitoring s;
                  processStartTime := processStartTime s;
                  os_log := os_log s ++ [signalled (pid p) sig];
                  waiting := waiting s |}
      | no_such_process => Some s
      | not_permitted => Some (on_error s)
      | unsupported => None
      end
  end.

Definition set_waiting (n : nat) (s : Supervisor) : Supervisor :=
  {| monitoringProcess := monitoringProcess s; isMonitoring := isMonitoring s;
     processStartTime := processStartTime s; os_log := os_log s;
     waiting := n |}.

(** [stopMonitoring] up to [await new Promise(... 2000)]: either it has
    answered, or it is suspended. *)
Definition stop_begin (term : KillResult) (s : Supervisor)
    : option Response * Supervisor :=
  if negb (isMonitoring s)
     || match monitoringProcess s with None => true | Some _ => false end
  then (Some NotRunning, s)
  else
    match kill SIGTERM term s with
    | None => (Some StopFailed, s)
    | Some s' => (None, set_waiting (S (waiting s')) s')
    end.

(** [stopMonitoring] after the wait. *)
Definition stop_resume (force : KillResult) (s : Supervisor)
    : Response * Supervisor :=
  let s := set_waiting (Nat.pred (waiting s)) s in
  match monitoringProcess s with
  | Some p =>
      if negb (killed p) then
        match kill SIGKILL force s with
        | None => (StopFailed, s)
        | Some s' => (Stopped, clear s')
        end
      else (Stopped, clear s)
  | None => (Stopped, clear s)
  end.

(** What can happen to the supervisor, one event-loop turn at a time. *)
Inductive Op :=
| op_start (now : N) (sp : SpawnResult)
| op_stop_begin (term : KillResult)
| op_stop_resume (force : KillResult)
| op_exit
| op_error.

Definition step (o : Op) (s : Supervisor) : Supervisor :=
  match o with
  | op_start now sp => snd (startMonitoring now sp s)
  | op_stop_begin term => snd (stop_begin term s)
  | op_stop_resume force =>
      match waiting s with
      | O => s
      | S _ => snd (stop_resume force s)
      end
  | op_exit => on_exit s
  | op_error => on_error s
  end.

Definition steps (ops : list Op) (s : Supervisor) : Supervisor :=
  fold_left (fun s o => step o s) ops s.

Inductive reachable : Supervisor -> Prop :=
| reach_initial : reachable initial
| reach_step : forall o s, reachable s -> reachable (step o s).

(** One whole [stopMonitoring] call: [during] is what the event loop runs
    while the call waits. *)
Definition stopMonitoring (term : KillResult) (during : list Op)
    (force : KillResult) (s : Supervisor) : Response * Supervisor :=
  match stop_begin term s with
  | (Some r, s') => (r, s')
  | (None, s') => stop_resume force (steps during s')
  end.

Definition has_handle (s : Supervisor) : bool :=
  match monitoringProcess s with Some _ => true | None => false end.

End Monitoring.

(** ** The crash-test supervisor of [/api/crash-test] *)
Module CrashTest.
Import Child.

Record Supervisor := {
  activeTestProcess : option ChildProcess;
  testStartTime : option Z;
  os_log : list Effect
}.

Definition initial : Supervisor :=
  {| activeTestProcess := None; testStartTime := None; os_log := [] |}.

Record Crash := {
  time : Z;
  method : jsstring;
  description : jsstring
}.

Record StatusData := {
  isRunning : bool;
  elapsedTime : Z;
  nextCrash : option (Crash * Z);   (* the milestone and its [timeUntil] *)
  completedCrashes : list Crash;
  totalDuration : Z;
  status_pid : option N
}.

Record Response := {
  code : N;
  success : bool;
  message : option jsstring;
  pid : option N;
  data : option StatusData
}.

Definition Started (p : option N) : Response :=
  {| code := 200; success := true;
     message := Some (js "Crash test started successfully");
     pid := p; data := None |}.

Definition Stopped : Response :=
  {| code := 200; success := true;
     message := Some (js "Crash test stopped successfully");
     pid := None; data := None |}.

Definition NothingToStop : Response :=
  {| code := 200; success := false;
     message := Some (js "No active crash test to stop");
     pid := None; data := None |}.

Definition InvalidAction : Response :=
  {| code := 400; success := false; message := Some (js "Invalid action");
     pid := None; data := None |}.

(** The answer of the [catch] block.  Its message is the text of the error
    thrown, for which the name of the failing call stands here. *)
Definition Failed (msg : jsstring) : Response :=
  {| code := 500; success := false; message := Some msg;
     pid := None; data := None |}.

(** An [AlreadyRunning] answer would be an unsuccessful one. *)
Definition refused (r : Response) : bool := negb (success r).

(** The [close] listener. *)
Definition on_close (s : Supervisor) : Supervisor :=
  {| activeTestProcess := None; testStartTime := None; os_log := os_log s |}.

(** [activeTestProcess.kill('SIGTERM')]; [None] when the call throws.  No
    [error] listener is registered on the child, so an emitted [error]
    throws as well. *)
Definition kill (r : KillResult) (s : Supervisor) : option Supervisor :=
  match activeTestProcess s with
  | None => Some s
  | Some p =>
      match r with
      | delivered =>
          Some {| activeTestProcess := Some (mark_killed p);
                  testStartTime := testStartTime s;
                  os_log := os_log s ++ [signalled (Child.pid p) SIGTERM] |}
      | no_such_process => Some s
      | not_permitted | unsupported => None
      end
  end.

Definition drop_handle (s : Supervisor) : Supervisor :=
  {| activeTestProcess := None; testStartTime := testStartTime s;
     os_log := os_log s |}.

(** [action === 'start'] *)
Definition start (now : Z) (term : KillResult) (sp : SpawnResult)
    (s : Supervisor) : Response * Supervisor :=
  match
    match activeTestProcess s with
    | Some _ => option_map drop_handle (kill term s)
    | None => Some s
    end
  with
  | None => (Failed (js "kill"), s)
  | Some s1 =>
      match sp with
      | child p =>
          (Started p,
           {| activeTestProcess := Some {| Child.pid := p; killed := false |};
              testStartTime := Some now;
              os_log := os_log s1 ++ [spawned p] |})
      | spawn_throws => (Failed (js "spawn"), s1)
      end
  end.

(** [action === 'stop'] *)
Definition stop (term : KillResult) (s : Supervisor)
    : Response * Supervisor :=
  match activeTestProcess s with
  | Some _ =>
      match kill term s with
      | None => (Failed (js "kill"), s)
      | Some s1 => (Stopped, on_close s1)
      end
  | None => (NothingToStop, s)
  end.

(** [crashSchedule] *)
Definition crashSchedule : list Crash :=
  [ {| time := 15; method := js "stop"; description := js "PM2 Stop" |};
    {| time := 60; method := js "kill"; description := js "Process Kill" |};
    {| time := 120; method := js "stop"; description := js "PM2 Stop" |} ]%Z.

(** The [for (const crash of crashSchedule)] loop: the state is
    [(nextCrash, completedCrashes)]. *)
Definition scan_step (elapsed : Z) (acc : option Crash * list Crash)
    (crash : Crash) : option Crash * list Crash :=
  let (next, completed) := acc in
  if (time crash <=? elapsed)%Z then (next, completed ++ [crash])
  else match next with
       | None => (Some crash, completed)
       | Some _ => (next, completed)
       end.

Definition scan (elapsed : Z) (schedule : list Crash)
    : option Crash * list Crash :=
  fold_left (scan_step elapsed) schedule (None, []).

(** [testStartTime ? Math.floor((Date.now() - testStartTime) / 1000) : 0] *)
Definition elapsed_seconds (now : Z) (s : Supervisor) : Z :=
  match testStartTime s with
  | Some t => if (t =? 0)%Z then 0%Z else ((now - t) / 1000)%Z
  | None => 0%Z
  end.

(** The [data] of a status answer, for a given [elapsedTime]. *)
Definition report (elapsed : Z) (s : Supervisor) : StatusData :=
  let (next, completed) := scan elapsed crashSchedule in
  {| isRunning :=
       match activeTestProcess s with
       | Some p => negb (killed p)
       | None => false
       end;
     elapsedTime := elapsed;
     nextCrash := option_map (fun c => (c, (time c - elapsed)%Z)) next;
     completedCrashes := completed;
     totalDuration := 150;
     status_pid :=
       match activeTestProcess s with
       | Some p =>
           match Child.pid p with
           | Some 0%N | None => None
           | Some n => Some n
           end
       | None => None
       end |}.

(** [action === 'status'] *)
Definition status (now : Z) (s : Supervisor) : Response :=
  {| code := 200; success := true; message := None; pid := None;
     data := Some (report (elapsed_seconds now s) s) |}.

(** The requests the route serves, with what the operating system answers. *)
Inductive Request :=
| req_start (now : Z) (term : KillResult) (sp : SpawnResult)
| req_stop (term : KillResult)
| req_status (now : Z)
| req_other.

Definition POST (q : Request) (s : Supervisor) : Response * Supervisor :=
  match q with
  | req_start now term sp => start now term sp s
  | req_stop term => stop term s
  | req_status now => (status now s, s)
  | req_other => (InvalidAction, s)
  end.

End CrashTest.

(** ** Incident records ([src/types/index.ts]) *)
Module Types.

Record Diagnosis := {
  status : jsstring;
  reason : jsstring;
  detailed_diagnosis : option jsstring;
  confidence : float
}.

Record Action := {
  repair_attempted : bool;
  repair_action : jsstring;
  repair_success : bool;
  repair_output : jsstring
}.

Record Verification := {
  verified : bool;
  verification_response : jsstring;
  post_repair_status : jsstring
}.

Record Metadata := {
  nginx_logs_length : Z;
  health_check_successful : bool;
  workflow_completed : bool
}.

Record FlashcardIncident := {
  detected_at : jsstring;
  diagnosis : Diagnosis;
  action : Action;
  verification : Verification;
  metadata : Metadata
}.

Record SystemStats := {
  uptimePercentage : float;
  averageRepairTime : float;
  incidentsLast24h : nat;
  averageConfidence : float
}.

End Types.

(** ** Reading the incident store: [/api/incidents] and [/api/stats]

    [JSON_parse] stands for [JSON.parse] followed by the cast to
    [FlashcardIncident]: [None] when it throws.  [Date_getTime] stands for
    [new Date(s).getTime()]: [None] for an invalid date (NaN).  The file is
    [Some content], or [None] when [readFile] rejects, as it does for a
    missing file. *)
Module Store.
Import Types.

Section Reads.

Variable JSON_parse : jsstring -> option FlashcardIncident.
Variable Date_getTime : jsstring -> option Z.

(** [fileContent.trim().split('\n').filter(line => line.length > 0)] *)
Definition record_lines (fileContent : jsstring) : list jsstring :=
  filter truthy (split_nl (trim fileContent)).

(** [.map(line => JSON.parse(line))]: the first line that fails to parse
    makes the whole [map] throw. *)
Fixpoint parse_all (lines : list jsstring) : option (list FlashcardIncident) :=
  match lines with
  | [] => Some []
  | line :: rest =>
      match JSON_parse line with
      | None => None
      | Some r =>
          match parse_all rest with
          | None => None
          | Some rs => Some (r :: rs)
          end
      end
  end.

(** The comparator [new Date(b.detected_at).getTime() -
    new Date(a.detected_at).getTime()] is negative: [a] goes first.  A NaN
    result counts as zero. *)
Definition newer (a b : FlashcardIncident) : bool :=
  match Date_getTime (detected_at a), Date_getTime (detected_at b) with
  | Some ta, Some tb => (tb <? ta)%Z
  | _, _ => false
  end.

(** [Array.prototype.sort] is stable; a stable insertion sort stands for
    it: an element moves behind those that are strictly newer only. *)
Fixpoint insert_sorted (x : FlashcardIncident) (l : list FlashcardIncident)
    : list FlashcardIncident :=
  match l with
  | [] => [x]
  | y :: l' => if newer y x then y :: insert_sorted x l' else x :: l
  end.

Definition sort_newest_first (l : list FlashcardIncident)
    : list FlashcardIncident :=
  fold_right insert_sorted [] l.

(** *** [/api/incidents] *)

Record IncidentsResponse := {
  i_code : N;
  i_success : bool;
  i_error : option jsstring;
  i_data : list FlashcardIncident;
  i_count : nat
}.

Definition incidents_failure : IncidentsResponse :=
  {| i_code := 500; i_success := false;
     i_error := Some (js "Failed to read incident history");
     i_data := []; i_count := 0 |}.

Definition incidents_GET (file : option jsstring) : IncidentsResponse :=
  match file with
  | None => incidents_failure
  | Some fileContent =>
      match parse_all (record_lines fileContent) with
      | None => incidents_failure
      | Some parsed =>
          let incidents := sort_newest_first parsed in
          {| i_code := 200; i_success := true; i_error := None;
             i_data := incidents; i_count := List.length incidents |}
      end
  end.

(** *** [/api/stats] *)

(** [readIncidents]: whatever is thrown inside its [try] gives [[]]. *)
Definition readIncidents (file : option jsstring) : list FlashcardIncident :=
  match file with
  | None => []
  | Some fileContent =>
      match parse_all (record_lines fileContent) with
      | None => []
      | Some parsed => parsed
      end
  end.

(** An array length as a JavaScript number. *)
Definition number_of (n : nat) : float :=
  PrimFloat.of_uint63 (Uint63.of_Z (Z.of_nat n)).

(** [Math.max(a, b)] *)
Definition Math_max (a b : float) : float :=
  if PrimFloat.is_nan a || PrimFloat.is_nan b then PrimFloat.nan
  else if PrimFloat.ltb a b then b
  else if PrimFloat.ltb b a then a
  else if PrimFloat.get_sign a then b else a.

Definition baseline : SystemStats :=
  {| uptimePercentage := 100; averageRepairTime := 0;
     incidentsLast24h := 0; averageConfidence := 0 |}.

(** [calculateStats]; [now] is [new Date().getTime()]. *)
Definition calculateStats (now : Z) (incidents : list FlashcardIncident)
    : SystemStats :=
  match incidents with
  | [] => baseline
  | _ :: _ =>
      let oneDayAgo := (now - 24 * 60 * 60 * 1000)%Z in
      let incidentsLast24h :=
        List.length
          (filter (fun incident =>
                     match Date_getTime (detected_at incident) with
                     | Some t => (oneDayAgo <=? t)%Z
                     | None => false
                     end) incidents) in
      let downIncidents :=
        filter (fun incident =>
                  str_eqb (status (diagnosis incident)) (js "DOWN"))
               incidents in
      let totalDowntimeMinutes :=
        (number_of (List.length downIncidents) * 1)%float in
      let totalPeriodMinutes := (30 * 24 * 60)%float in
      let uptimePercentage :=
        Math_max 0
          (100 - (totalDowntimeMinutes / totalPeriodMinutes * 100))%float in
      let repairedIncidents :=
        filter (fun incident =>
                  repair_attempted (action incident)
                  && repair_success (action incident)) incidents in
      let averageRepairTime :=
        match repairedIncidents with
        | _ :: _ =>
            (fold_left
               (fun sum incident =>
                  sum + (1 - confidence (diagnosis incident)) * 30)
               repairedIncidents 0
             / number_of (List.length repairedIncidents))%float
        | [] => 0%float
        end in
      let averageConfidence :=
        (fold_left
           (fun sum incident => sum + confidence (diagnosis incident))
           incidents 0
         / number_of (List.length incidents))%float in
      {| uptimePercentage := uptimePercentage;
         averageRepairTime := averageRepairTime;
         incidentsLast24h := incidentsLast24h;
         averageConfidence := averageConfidence |}
  end.

Record StatsResponse := {
  s_code : N;
  s_success : bool;
  s_error : option jsstring;
  s_data : SystemStats
}.

(** The answer of the [catch] block of the route. *)
Definition stats_failure : StatsResponse :=
  {| s_code := 500; s_success := false;
     s_error := Some (js "Failed to calculate system statistics");
     s_data := {| uptimePercentage := 0; averageRepairTime := 0;
                  incidentsLast24h := 0; averageConfidence := 0 |} |}.

(** [readIncidents] and [calculateStats] throw nothing on records of the
    declared shape, so the [catch] block is not entered. *)
Definition stats_GET (now : Z) (file : option jsstring) : StatsResponse :=
  {| s_code := 200; s_success := true; s_error := None;
     s_data := calculateStats now (readIncidents file) |}.

(** The store cannot be read: the file is missing, or one of its lines does
    not parse. *)
Definition malformed (fileContent : jsstring) : bool :=
  existsb (fun line => match JSON_parse line with None => true | Some _ => false end)
          (record_lines fileContent).

Definition unavailable (file : option jsstring) : bool :=
  match file with
  | None => true
  | Some fileContent => malformed fileContent
  end.

End Reads.

(** A stand-in for [JSON.parse] that, like it, rejects text that is not
    JSON; it accepts nothing else either. *)
Definition rejects_everything (line : jsstring) : option FlashcardIncident :=
  None.

End Store.

(** ** [parseAgentLog] of the stream route *)
Module AgentLog.

Record Event := {
  agent : jsstring;
  type : jsstring;
  message : jsstring;
  status : option jsstring;
  confidence : option float;
  timestamp : N;
  level : Log.Level
}.

(** [line.match(/(UP|DOWN)/)?.[1]]: the leftmost of the two words. *)
Fixpoint match_UP_DOWN (line : jsstring) : option jsstring :=
  if startsWith line (js "UP") then Some (js "UP")
  else if startsWith line (js "DOWN") then Some (js "DOWN")
  else match line with
       | [] => None
       | _ :: rest => match_UP_DOWN rest
       end.

(** The class [[\d.]]. *)
Definition digit_or_dot (c : N) : bool :=
  ((48 <=? c) && (c <=? 57) || (c =? 46))%N.

Fixpoint takeWhile {A} (f : A -> bool) (l : list A) : list A :=
  match l with
  | [] => []
  | x :: l' => if f x then x :: takeWhile f l' else []
  end.

(** [line.match(/confidence: ([\d.]+)/)?.[1]]: the leftmost place where
    the word is followed by at least one digit or dot, and the longest run
    of them there. *)
Fixpoint match_confidence (line : jsstring) : option jsstring :=
  let here :=
    if startsWith line (js "confidence: ")
    then takeWhile digit_or_dot (skipn 12 line)
    else [] in
  match here with
  | _ :: _ => Some here
  | [] =>
      match line with
      | [] => None
      | _ :: rest => match_confidence rest
      end
  end.

Section Parse.

(** The library function [parseFloat]. *)
Variable parseFloat : jsstring -> float.

(** [now] is the clock read by [new Date()] on entry.  Nothing in the [try]
    block throws on a string, so the [catch] branch is left out. *)

Definition parseAgentLog (now : N) (line : jsstring) : option Event :=
  let timestamp := now in
  if includes line (js "Supervisor diagnosis:") then
    Some {| agent := js "supervisor"; type := js "diagnosis"; message := line;
            status := Some (match match_UP_DOWN line with
                            | Some s => s
                            | None => js "UNKNOWN"
                            end);
            confidence := Some (match match_confidence line with
                                | Some c => parseFloat c
                                | None => 0%float
                                end);
            timestamp := timestamp; level := Log.info |}
  else if includes line (js "Executor:") || includes line (js "PM2")
          || includes line (js "restart") then
    Some {| agent := js "executor"; type := js "repair"; message := line;
            status := None; confidence := None; timestamp := timestamp;
            level := if includes line (js "success") then Log.success
                     else Log.info |}
  else if includes line (js "Evaluator:")
          || includes line (js "Flashcard written") then
    Some {| agent := js "evaluator"; type := js "evaluation"; message := line;
            status := None; confidence := None; timestamp := timestamp;
            level := Log.success |}
  else if includes line (js "Starting monitoring cycle")
          || includes line (js "MONITORING CYCLE SUMMARY")
          || includes line (js "Server is DOWN")
          || includes line (js "Server appears to be UP") then
    Some {| agent := js "system"; type := js "workflow"; message := line;
            status := None; confidence := None; timestamp := timestamp;
            level := if includes line (js "DOWN") then Log.warn
                     else Log.info |}
  else if includes line (js "LLM diagnosis:") then
    Some {| agent := js "supervisor"; type := js "llm_diagnosis";
            message := line; status := None; confidence := None;
            timestamp := timestamp; level := Log.info |}
  else if includes line (js "ERROR") || includes line (js "Failed") then
    Some {| agent := js "system"; type := js "error"; message := line;
            status := None; confidence := None; timestamp := timestamp;
            level := Log.error |}
  else if truthy (trim line) then
    Some {| agent := js "system"; type := js "general"; message := line;
            status := None; confidence := None; timestamp := timestamp;
            level := Log.info |}
  else None.

(** An event without the time at which it was built. *)
Definition untimed (e : Event) : Event :=
  {| agent := agent e; type := type e; message := message e;
     status := status e; confidence := confidence e; timestamp := 0;
     level := level e |}.

End Parse.

End AgentLog.

(** ** Further parts of the sources *)

From Stdlib Require Import DecimalString Permutation Sorted.

(** *** [src/lib/utils.ts] *)
Module Utils.



End Utils.

(** *** The rest of [/api/monitoring]: the status request and the single
    check *)
Module MonitoringRoute.
Import Child Monitoring.

Record StatusData := {
  isRunning : bool;
  processId : option N;
  startTime : option N;
  lastActivity : option jsstring;
  logSize : N
}.

(** [logContent.trim().split('\n')], then the last of the lines; [split]
    gives at least one line, so that the test on [lines.length] always
    passes. *)
Definition lastLogEntry (logContent : jsstring) : jsstring :=
  last (split_nl (trim logContent)) [].

(** [GET].  [size] is what [stat] finds for [agent.log] and [content] what
    [readFile] reads, [None] when they throw: the inner [catch] then leaves
    what was assigned so far. *)
Definition GET (size : option N) (content : option jsstring)
    (s : Supervisor) : StatusData :=
  let '(lastLog, logSize) :=
    if negb (Monitoring.isMonitoring s) then
      match size with
      | None => (None, 0%N)
      | Some n => (option_map lastLogEntry content, n)
      end
    else (None, 0%N) in
  {| isRunning :=
       Monitoring.isMonitoring s
       && match monitoringProcess s with Some _ => true | None => false end;
     processId :=
       match monitoringProcess s with
       | Some p =>
           match pid p with
           | Some 0%N | None => None
           | Some n => Some n
           end
       | None => None
       end;
     startTime := processStartTime s;
     lastActivity := lastLog;
     logSize := logSize |}.

(** [Array.prototype.findIndex]; [None] stands for [-1]. *)
Fixpoint findIndex {A} (f : A -> bool) (l : list A) : option nat :=
  match l with
  | [] => None
  | x :: l' => if f x then Some 0 else option_map S (findIndex f l')
  end.

Definition summary_marker : jsstring := js "MONITORING CYCLE SUMMARY".

(** The [parsed] field of [triggerSingleCheck]: the first ten lines of the
    output from the first one that holds the marker. *)
Definition summaryLines (stdout : jsstring) : option (list jsstring) :=
  let outputLines := split_nl stdout in
  match findIndex (fun line => includes line summary_marker) outputLines with
  | Some summaryStart => Some (firstn 10 (skipn summaryStart outputLines))
  | None => None
  end.

(** What [execAsync] gives: the two outputs, or a rejection with what was
    captured and the text of the error. *)
Inductive ExecResult :=
| exited (stdout stderr : jsstring)
| exec_failed (stdout : option jsstring) (details : jsstring).

Record CheckResponse := {
  c_code : N;
  c_success : bool;
  c_message : option jsstring;
  c_output : option jsstring;
  c_error : option jsstring;
  c_parsed : option (list jsstring);
  c_errorDetails : option jsstring;
  c_timestamp : N
}.

Definition truthy_or_null (s : jsstring) : option jsstring :=
  if truthy s then Some s else None.

Definition triggerSingleCheck (now : N) (r : ExecResult) : CheckResponse :=
  match r with
  | exited stdout stderr =>
      {| c_code := 200; c_success := true;
         c_message :=
           Some (js "Single agentic AI check completed successfully");
         c_output := Some stdout;
         c_error := truthy_or_null stderr;
         c_parsed := summaryLines stdout;
         c_errorDetails := None;
         c_timestamp := now |}
  | exec_failed stdout details =>
      {| c_code := 500; c_success := false;
         c_message := None;
         c_output := match stdout with
                     | Some o => truthy_or_null o
                     | None => None
                     end;
         c_error := Some (js "Single check failed");
         c_parsed := None;
         c_errorDetails := Some details;
         c_timestamp := now |}
  end.

End MonitoringRoute.

(** *** The overview page: [fetchIncidents] *)
Module Overview.
Import Types Store.

(** [interface MonitoringStatus] *)
Record MonitoringStatus := {
  isRunning : bool;
  lastCheck : option jsstring;
  currentStatus : jsstring;
  nextCheckIn : Z;
  totalIncidents : nat;
  successfulRepairs : nat
}.

(** The state update of [fetchIncidents] for an answer of [/api/incidents];
    an answer without the success flag changes nothing. *)
Definition fetchIncidents (result : IncidentsResponse)
    (prev : MonitoringStatus) : MonitoringStatus :=
  if i_success result then
    {| isRunning := isRunning prev;
       lastCheck :=
         match i_data result with
         | first :: _ =>
             if truthy (detected_at first) then Some (detected_at first)
             else None
         | [] => None
         end;
       currentStatus :=
         match i_data result with
         | first :: _ =>
             if truthy (post_repair_status (verification first))
             then post_repair_status (verification first)
             else js "UNKNOWN"
         | [] => js "UNKNOWN"
         end;
       nextCheckIn := nextCheckIn prev;
       totalIncidents := i_count result;
       successfulRepairs :=
         List.length
           (filter (fun i => repair_attempted (action i)
                             && repair_success (action i))
                   (i_data result)) |}
  else prev.

(** The time of a record, 0 standing for an invalid date. *)
Definition stamp (Date_getTime : jsstring -> option Z)
    (r : FlashcardIncident) : Z :=
  match Date_getTime (detected_at r) with
  | Some t => t
  | None => 0%Z
  end.

(** A record whose only content of interest is its date and whether it was
    repaired; used to run the reads on concrete input. *)
Definition sample (date : jsstring) (repaired : bool) : FlashcardIncident :=
  {| detected_at := date;
     diagnosis := {| status := js "DOWN"; reason := js "";
                     detailed_diagnosis := None; confidence := 0.5 |};
     action := {| repair_attempted := repaired; repair_action := js "";
                  repair_success := repaired; repair_output := js "" |};
     verification := {| verified := repaired; verification_response := js "";
                        post_repair_status := js "UP" |};
     metadata := {| nginx_logs_length := 0;
                    health_check_successful := repaired;
                    workflow_completed := true |} |}.

(** Stand-ins for [JSON.parse] and [Date]: each line is taken as the date
    of a repaired record, and a date is worth its length. *)
Definition line_as_date (line : jsstring) : option FlashcardIncident :=
  Some (sample line true).

Definition length_as_time (date : jsstring) : option Z :=
  Some (Z.of_nat (List.length date)).

End Overview.

(** *** Properties of handlers *)
Module Handlers.
Import Dashboard.

(** A handler keeps a property of the state. *)
Definition preserves (P : Dash -> Prop) (a : Action) : Prop :=
  forall d, P d -> P (a d).

(** No agent has the status [error]. *)
Definition no_error (d : Dash) : Prop :=
  Forall (fun a => status a <> error) (agents d).

(** The log holds at most [n] entries. *)
Definition log_within (n : nat) (d : Dash) : Prop :=
  List.length (serverLogs d) <= n.

End Handlers.

(* ================================================================== *)
(** * Part II: lemmas and theorems *)
(* ================================================================== *)

(** ** Strings *)
Section StringFacts.

Example includes_is_case_sensitive :
  includes (js "POST-REPAIR Verification passed") (js "REPAIR") = true
  /\ includes (js "POST-REPAIR Verification passed") (js "repair") = false.
Proof. split; reflexivity. Qed.

Example split_nl_keeps_the_empty_tail :
  split_nl (js "a" ++ [LF] ++ js "b" ++ [LF]) = [js "a"; js "b"; []].
Proof. reflexivity. Qed.

Example trim_strips_both_ends :
  trim ([9; 32] ++ js "a b" ++ [13; 10])%N = js "a b".
Proof. reflexivity. Qed.

Lemma str_eqb_refl (a : jsstring) : str_eqb a a = true.
Proof.
  induction a as [|x a IH]; simpl; [reflexivity|].
  now rewrite N.eqb_refl, IH.
Qed.

Lemma str_eqb_eq (a b : jsstring) : str_eqb a b = true <-> a = b.
Proof.
  split; [|intros ->; apply str_eqb_refl].
  revert b; induction a as [|x a IH]; intros [|y b]; simpl;
    try discriminate; [reflexivity|].
  rewrite andb_true_iff, N.eqb_eq. intros [-> H]. now rewrite (IH _ H).
Qed.

Lemma str_eqb_neq (a b : jsstring) : str_eqb a b = false <-> a <> b.
Proof.
  rewrite <- str_eqb_eq. destruct (str_eqb a b); split; congruence.
Qed.

Lemma split_nl_cons (s : jsstring) :
  exists piece pieces, split_nl s = piece :: pieces.
Proof.
  destruct s as [|c s]; simpl; [now eexists; eexists|].
  destruct (N.eqb c LF); [now eexists; eexists|].
  destruct (split_nl s); now eexists; eexists.
Qed.

(** Splitting loses nothing: joining the pieces gives the text back. *)
Lemma join_split (s : jsstring) : join_nl (split_nl s) = s.
Proof.
  induction s as [|c s IH]; simpl; [reflexivity|].
  destruct (N.eqb_spec c LF) as [->|_].
  - destruct (split_nl_cons s) as (p & ps & E). rewrite E in *.
    simpl. now rewrite <- IH.
  - destruct (split_nl_cons s) as (p & ps & E). rewrite E in *.
    rewrite <- IH. now destruct ps.
Qed.

(** A newline after every line is a join with one empty piece more. *)
Lemma unlines_join (lines : list jsstring) :
  unlines lines = join_nl (lines ++ [[]]).
Proof.
  unfold unlines.
  induction lines as [|l ls IH]; simpl; [reflexivity|].
  rewrite IH, <- app_assoc. simpl.
  now destruct (ls ++ [[]]) eqn:E; [destruct ls; discriminate|].
Qed.

Lemma unlines_app (a b : list jsstring) :
  unlines (a ++ b) = unlines a ++ unlines b.
Proof. unfold unlines. now rewrite map_app, concat_app. Qed.

(** No piece of a split holds a newline. *)
Lemma split_nl_no_LF (s piece : jsstring) :
  In piece (split_nl s) -> ~ In LF piece.
Proof.
  revert piece; induction s as [|c s IH]; simpl; intros piece.
  - intros [<-|[]]; intros [].
  - destruct (N.eqb_spec c LF) as [->|Hc].
    + intros [<-|H]; [intros []|now apply IH].
    + destruct (split_nl_cons s) as (p & ps & E). rewrite E in *.
      intros [<-|H].
      * intros [->|H']; [now apply Hc|]. apply (IH p); [now left|assumption].
      * apply IH. now right.
Qed.

End StringFacts.

(** ** The line framer *)
Section Framer.
Import LineFramer.

Example framed_lines_drops_blank_lines :
  framed_lines (js "up" ++ [LF] ++ js "  " ++ [LF; LF] ++ js "ok")
  = [js "up"; js "ok"].
Proof. reflexivity. Qed.

Lemma emitted_flat_map (p : Pipe) (chunks : list (N * jsstring)) :
  emitted p chunks = flat_map (fun c => framed_lines (snd c)) chunks.
Proof.
  unfold emitted.
  induction chunks as [|[now output] rest IH]; simpl; [reflexivity|].
  rewrite map_app, IH. f_equal.
  unfold on_data. rewrite map_map.
  destruct p; simpl; apply map_id.
Qed.

Lemma emitted_app (p : Pipe) (a b : list (N * jsstring)) :
  emitted p (a ++ b) = emitted p a ++ emitted p b.
Proof. now rewrite !emitted_flat_map, flat_map_app. Qed.

(** A chunk of whole lines splits into its framed lines and one empty
    piece after the last newline. *)
Lemma whole_lines_split (output : jsstring) :
  whole_lines output = true ->
  split_nl output = framed_lines output ++ [[]].
Proof.
  unfold whole_lines, framed_lines.
  destruct (rev (split_nl output)) as [|[|c l] lines] eqn:E; try discriminate.
  intros Hall.
  assert (Hs : split_nl output = rev lines ++ [[]]).
  { rewrite <- (rev_involutive (split_nl output)), E. reflexivity. }
  rewrite Hs, filter_app. simpl. rewrite app_nil_r.
  f_equal. symmetry. apply forallb_filter_id.
  rewrite forallb_forall in *. intros x Hx. apply Hall. now apply in_rev.
Qed.

Lemma whole_lines_roundtrip (output : jsstring) :
  whole_lines output = true -> unlines (framed_lines output) = output.
Proof.
  intros H. rewrite unlines_join, <- (whole_lines_split _ H).
  apply join_split.
Qed.

End Framer.

(** ** The agent state machine *)
Section AgentCards.
Import Dashboard.

(** *** [updateAgentStatus] touches one card *)

Lemma updated_length agentId updates now prev :
  List.length (updated agentId updates now prev) = List.length prev.
Proof. apply length_map. Qed.

Lemma updated_nth agentId updates now prev i a :
  nth_error prev i = Some a ->
  nth_error (updated agentId updates now prev) i
  = Some (if str_eqb (id a) agentId then merge a updates now else a).
Proof.
  intros H. unfold updated. rewrite nth_error_map, H. reflexivity.
Qed.

Lemma roles_distinct :
  str_eqb supervisor executor = false /\ str_eqb supervisor evaluator = false
  /\ str_eqb executor supervisor = false /\ str_eqb executor evaluator = false
  /\ str_eqb evaluator supervisor = false /\ str_eqb evaluator executor = false.
Proof. repeat split; reflexivity. Qed.

(** On the three cards, an update that carries no id changes the status of
    the card it names and nothing else that [shows] looks at. *)
Lemma updated_cards agentId st task now l s e v :
  map (fun a => (id a, status a)) l
    = [(supervisor, s); (executor, e); (evaluator, v)] ->
  map (fun a => (id a, status a)) (updated agentId (status_task st task) now l)
    = [(supervisor, if str_eqb supervisor agentId then st else s);
       (executor, if str_eqb executor agentId then st else e);
       (evaluator, if str_eqb evaluator agentId then st else v)].
Proof.
  destruct l as [|a1 [|a2 [|a3 [|a4 l]]]]; try discriminate.
  cbn [map]. intros H. injection H as I1 S1 I2 S2 I3 S3. subst.
  unfold updated. cbn [map]. rewrite I1, I2, I3.
  destruct (str_eqb supervisor agentId), (str_eqb executor agentId),
    (str_eqb evaluator agentId); cbn; rewrite ?I1, ?I2, ?I3; reflexivity.
Qed.

Lemma shows_update_supervisor d s e v srv wf st task :
  shows d s e v srv wf ->
  shows (updateAgentStatus supervisor (status_task st task) d) st e v srv wf.
Proof.
  intros (Ha & Hs & Hw). repeat split; try assumption.
  cbn. now rewrite (updated_cards _ _ _ _ _ _ _ _ Ha).
Qed.

Lemma shows_update_executor d s e v srv wf st task :
  shows d s e v srv wf ->
  shows (updateAgentStatus executor (status_task st task) d) s st v srv wf.
Proof.
  intros (Ha & Hs & Hw). repeat split; try assumption.
  cbn. now rewrite (updated_cards _ _ _ _ _ _ _ _ Ha).
Qed.

Lemma shows_update_evaluator d s e v srv wf st task :
  shows d s e v srv wf ->
  shows (updateAgentStatus evaluator (status_task st task) d) s e st srv wf.
Proof.
  intros (Ha & Hs & Hw). repeat split; try assumption.
  cbn. now rewrite (updated_cards _ _ _ _ _ _ _ _ Ha).
Qed.

Lemma shows_reset d s e v srv wf :
  shows d s e v srv wf ->
  shows (setAgents reset_agents d) idle idle idle srv wf.
Proof.
  intros (Ha & Hs & Hw). repeat split; try assumption.
  cbn. destruct (agents d) as [|a1 [|a2 [|a3 [|a4 l]]]]; try discriminate.
  cbn in *. injection Ha as I1 S1 I2 S2 I3 S3. now rewrite I1, I2, I3.
Qed.

Lemma reset_cards d s e v srv wf :
  shows d s e v srv wf ->
  map card (agents (setAgents reset_agents d)) = map card initial_agents.
Proof.
  intros (Ha & _). cbn.
  destruct (agents d) as [|a1 [|a2 [|a3 [|a4 l]]]]; try discriminate.
  cbn in *. injection Ha as I1 S1 I2 S2 I3 S3.
  unfold card; cbn. now rewrite I1, I2, I3.
Qed.

Lemma shows_view d s e v srv wf :
  shows d s e v srv wf -> view d = (Some s, Some e, Some v, srv, wf).
Proof.
  intros (Ha & Hs & Hw). unfold view, statusOf. rewrite Hs, Hw.
  destruct (agents d) as [|a1 [|a2 [|a3 [|a4 l]]]]; try discriminate.
  cbn in *. injection Ha as I1 S1 I2 S2 I3 S3. rewrite I1, I2, I3.
  cbn. now subst.
Qed.

End AgentCards.

(** ** The repair scenario *)
Section RepairScenario.
Import Dashboard.
Open Scope N_scope.

(** *** What the classifier makes of the four lines *)

Lemma classify_diagnosis :
  detectAgentFromRawMessage (js "LLM diagnosis: DOWN confidence: 0.92")
  = (updateAgentStatus supervisor
       (status_task working (siren ++ js " Server DOWN detected!")) ;;
     setServerStatus down ;;
     setTimeout raw_prepare_executor 1500).
Proof. reflexivity. Qed.

Lemma classify_repair :
  detectAgentFromRawMessage (js "Executor: running PM2 restart")
  = (updateAgentStatus executor
       (status_task working (wrench ++ js " Executing repair...")) ;;
     updateAgentStatus supervisor
       (status_task completed (js "Analysis complete - repair needed"))).
Proof. reflexivity. Qed.

Lemma classify_verification :
  detectAgentFromRawMessage (js "POST-REPAIR Verification passed")
  = (updateAgentStatus evaluator
       (status_task working (js "Verifying repair success...")) ;;
     setTimeout raw_complete_executor 1000).
Proof. reflexivity. Qed.

Lemma classify_summary :
  detectAgentFromRawMessage (js "MONITORING CYCLE SUMMARY PASSED")
  = (updateAgentStatus evaluator
       (status_task completed (check_mark ++ js " Verification complete!")) ;;
     setTimeout raw_workflow_complete 1500).
Proof. reflexivity. Qed.

(** *** Their effect on a state, and that of the timers they register *)

Lemma arrive_diagnosis t d s e v srv wf c pend :
  stands d s e v srv wf c pend -> c <= t ->
  stands (arrive t (js "LLM diagnosis: DOWN confidence: 0.92") d)
    working e v down wf t (insert_timer (t + 1500, raw_prepare_executor) pend).
Proof.
  intros (Hs & Hc & Ht) Hle. unfold arrive. rewrite classify_diagnosis.
  assert (Hs' : shows (set_clock (N.max (clock d) t) d) s e v srv wf)
    by exact Hs.
  apply (shows_update_supervisor _ _ _ _ _ _ working
           (siren ++ js " Server DOWN detected!")) in Hs'.
  destruct Hs' as (Ha & _ & Hw).
  repeat split; cbn; try assumption; rewrite ?Ht, ?Hc; f_equal; try lia.
  f_equal. f_equal. lia.
Qed.

Lemma arrive_repair t d s e v srv wf c pend :
  stands d s e v srv wf c pend -> c <= t ->
  stands (arrive t (js "Executor: running PM2 restart") d)
    completed working v srv wf t pend.
Proof.
  intros (Hs & Hc & Ht) Hle. unfold arrive. rewrite classify_repair.
  assert (Hs' : shows (set_clock (N.max (clock d) t) d) s e v srv wf)
    by exact Hs.
  apply (shows_update_executor _ _ _ _ _ _ working
           (wrench ++ js " Executing repair...")) in Hs'.
  apply (shows_update_supervisor _ _ _ _ _ _ completed
           (js "Analysis complete - repair needed")) in Hs'.
  repeat split; try apply Hs'; cbn; rewrite ?Ht, ?Hc; try reflexivity; lia.
Qed.

Lemma arrive_verification t d s e v srv wf c pend :
  stands d s e v srv wf c pend -> c <= t ->
  stands (arrive t (js "POST-REPAIR Verification passed") d)
    s e working srv wf t (insert_timer (t + 1000, raw_complete_executor) pend).
Proof.
  intros (Hs & Hc & Ht) Hle. unfold arrive. rewrite classify_verification.
  assert (Hs' : shows (set_clock (N.max (clock d) t) d) s e v srv wf)
    by exact Hs.
  apply (shows_update_evaluator _ _ _ _ _ _ working
           (js "Verifying repair success...")) in Hs'.
  repeat split; try apply Hs'; cbn; rewrite ?Ht, ?Hc; f_equal; try lia.
  f_equal. f_equal. lia.
Qed.

Lemma arrive_summary t d s e v srv wf c pend :
  stands d s e v srv wf c pend -> c <= t ->
  stands (arrive t (js "MONITORING CYCLE SUMMARY PASSED") d)
    s e completed srv wf t (insert_timer (t + 1500, raw_workflow_complete) pend).
Proof.
  intros (Hs & Hc & Ht) Hle. unfold arrive. rewrite classify_summary.
  assert (Hs' : shows (set_clock (N.max (clock d) t) d) s e v srv wf)
    by exact Hs.
  apply (shows_update_evaluator _ _ _ _ _ _ completed
           (check_mark ++ js " Verification complete!")) in Hs'.
  repeat split; try apply Hs'; cbn; rewrite ?Ht, ?Hc; f_equal; try lia.
  f_equal. f_equal. lia.
Qed.

(** The state in which the callback of the earliest timer starts. *)
Lemma fire_head d due task pend :
  timers d = (due, task) :: pend ->
  fire 0 d = run_task task (set_clock (N.max (clock d) due)
                              (set_timers (remove_nth 0) d)).
Proof. intros H. unfold fire. now rewrite H. Qed.

Lemma fire_prepare_executor d s e v srv wf c due pend :
  stands d s e v srv wf c ((due, raw_prepare_executor) :: pend) -> c <= due ->
  stands (fire 0 d) s working v srv wf due pend.
Proof.
  intros (Hs & Hc & Ht) Hle. rewrite (fire_head _ _ _ _ Ht).
  assert (Hs' : shows (set_clock (N.max (clock d) due)
                         (set_timers (remove_nth 0) d)) s e v srv wf)
    by exact Hs.
  apply (shows_update_executor _ _ _ _ _ _ working
           (js "Preparing repair strategy...")) in Hs'.
  repeat split; try apply Hs'; cbn; rewrite ?Ht, ?Hc; try reflexivity; lia.
Qed.

Lemma fire_complete_executor d s e v srv wf c due pend :
  stands d s e v srv wf c ((due, raw_complete_executor) :: pend) -> c <= due ->
  stands (fire 0 d) s completed v srv wf due pend.
Proof.
  intros (Hs & Hc & Ht) Hle. rewrite (fire_head _ _ _ _ Ht).
  assert (Hs' : shows (set_clock (N.max (clock d) due)
                         (set_timers (remove_nth 0) d)) s e v srv wf)
    by exact Hs.
  apply (shows_update_executor _ _ _ _ _ _ completed
           (js "Repair execution complete")) in Hs'.
  repeat split; try apply Hs'; cbn; rewrite ?Ht, ?Hc; try reflexivity; lia.
Qed.

Lemma fire_workflow_complete d s e v srv wf c due pend :
  stands d s e v srv wf c ((due, raw_workflow_complete) :: pend) -> c <= due ->
  stands (fire 0 d) s e v srv (Some (js "Monitoring cycle complete")) due
    (insert_timer (due + 2000, raw_workflow_reset) pend).
Proof.
  intros (Hs & Hc & Ht) Hle. rewrite (fire_head _ _ _ _ Ht).
  destruct Hs as (Ha & Hsrv & Hw).
  repeat split; cbn; try assumption; rewrite ?Ht, ?Hc; f_equal; try lia.
  f_equal. f_equal. lia.
Qed.

Lemma fire_workflow_reset d s e v srv wf c due pend :
  stands d s e v srv wf c ((due, raw_workflow_reset) :: pend) -> c <= due ->
  stands (fire 0 d) idle idle idle srv None due pend
  /\ map card (agents (fire 0 d)) = map card initial_agents.
Proof.
  intros (Hs & Hc & Ht) Hle. rewrite (fire_head _ _ _ _ Ht).
  assert (Hs' : shows (setCurrentWorkflow None
                         (set_clock (N.max (clock d) due)
                            (set_timers (remove_nth 0) d))) s e v srv None).
  { destruct Hs as (Ha & Hsrv & Hw). now repeat split. }
  split.
  - apply shows_reset in Hs'.
    repeat split; try apply Hs'; cbn; rewrite ?Ht, ?Hc; try reflexivity; lia.
  - exact (reset_cards _ _ _ _ _ _ Hs').
Qed.

(** *** One turn of the event loop *)

Lemma run_fires_before_line fuel t msg rest d due task pend :
  timers d = (due, task) :: pend -> due <= t ->
  run (S fuel) ((t, msg) :: rest) d
  = fire 0 d :: run fuel ((t, msg) :: rest) (fire 0 d).
Proof.
  intros Ht Hle. cbn [run]. unfold timer_due. rewrite Ht.
  now apply N.leb_le in Hle as ->.
Qed.

Lemma run_line_first fuel t msg rest d due task pend :
  timers d = (due, task) :: pend -> t < due ->
  run (S fuel) ((t, msg) :: rest) d
  = arrive t msg d :: run fuel rest (arrive t msg d).
Proof.
  intros Ht Hlt. cbn [run]. unfold timer_due. rewrite Ht.
  now apply N.leb_gt in Hlt as ->.
Qed.

Lemma run_line_alone fuel t msg rest d :
  timers d = [] ->
  run (S fuel) ((t, msg) :: rest) d
  = arrive t msg d :: run fuel rest (arrive t msg d).
Proof. intros Ht. cbn [run]. unfold timer_due. now rewrite Ht. Qed.

Lemma run_fires_after_lines fuel d due task pend :
  timers d = (due, task) :: pend ->
  run (S fuel) [] d = fire 0 d :: run fuel [] (fire 0 d).
Proof. intros Ht. cbn [run]. now rewrite Ht. Qed.

Lemma run_quiet fuel d : timers d = [] -> run fuel [] d = [].
Proof. intros Ht. destruct fuel; cbn [run]; [reflexivity|now rewrite Ht]. Qed.

(** *** Following a run, one state at a time *)

Lemma last_cons {A} (a d : A) (l : list A) : last (a :: l) d = last l a.
Proof.
  revert a d; induction l as [|b l IH]; intros a d; [reflexivity|].
  change (last (a :: b :: l) d) with (last (b :: l) d).
  now rewrite !(IH b).
Qed.

Lemma ends_well_next seen d d' rest s e v srv wf c pend :
  stands d' s e v srv wf c pend ->
  ends_well (seen ++ [(Some s, Some e, Some v, srv, wf)]) d' rest ->
  ends_well seen d (d' :: rest).
Proof.
  intros (Hs & _) (Hh & Hc & Ht). unfold ends_well.
  cbn [map]. rewrite (shows_view _ _ _ _ _ _ Hs).
  rewrite last_cons.
  rewrite <- app_assoc in Hh. cbn [app] in Hh.
  split; [exact Hh|split; assumption].
Qed.

Lemma ends_well_done seen d :
  repair_histories seen ->
  map card (agents d) = map card initial_agents -> timers d = [] ->
  ends_well seen d [].
Proof.
  intros Hh Hc Ht. unfold ends_well. cbn [map last]. rewrite app_nil_r.
  split; [exact Hh|split; assumption].
Qed.

End RepairScenario.

Section RepairRun.
Import Dashboard.
Open Scope N_scope.

(** Put the timer list of [H] in explicit form, splitting on the
    comparisons of due times that the arithmetic leaves open. *)
Ltac order_timers H :=
  repeat (cbn [insert_timer fst snd] in H;
          match type of H with
          | context [N.ltb ?x ?y] =>
              revert H; destruct (N.ltb_spec x y); intro H;
              try (exfalso; lia)
          end);
  cbn [insert_timer fst snd] in H.

(** Record the state [d'] reached by the callback at the head of the run. *)
Ltac advance H' :=
  order_timers H';
  match type of H' with
  | stands ?d' _ _ _ _ _ _ _ =>
      apply (ends_well_next _ _ _ _ _ _ _ _ _ _ _ H');
      let n := fresh "d" in
      set (n := d') in *; clearbody n; cbn [app]
  end.

Ltac line_arrives Hd :=
  let H' := fresh "Hd" in
  match goal with
  | |- context [arrive ?t (js "LLM diagnosis: DOWN confidence: 0.92") ?d] =>
      pose proof (arrive_diagnosis t d _ _ _ _ _ _ _ Hd ltac:(lia)) as H'
  | |- context [arrive ?t (js "Executor: running PM2 restart") ?d] =>
      pose proof (arrive_repair t d _ _ _ _ _ _ _ Hd ltac:(lia)) as H'
  | |- context [arrive ?t (js "POST-REPAIR Verification passed") ?d] =>
      pose proof (arrive_verification t d _ _ _ _ _ _ _ Hd ltac:(lia)) as H'
  | |- context [arrive ?t (js "MONITORING CYCLE SUMMARY PASSED") ?d] =>
      pose proof (arrive_summary t d _ _ _ _ _ _ _ Hd ltac:(lia)) as H'
  end;
  clear Hd; advance H'.

Ltac timer_fires Hd :=
  let H' := fresh "Hd" in
  match type of Hd with
  | stands ?d _ _ _ _ _ _ ((_, raw_prepare_executor) :: _) =>
      pose proof (fire_prepare_executor d _ _ _ _ _ _ _ _ Hd ltac:(lia)) as H'
  | stands ?d _ _ _ _ _ _ ((_, raw_complete_executor) :: _) =>
      pose proof (fire_complete_executor d _ _ _ _ _ _ _ _ Hd ltac:(lia)) as H'
  | stands ?d _ _ _ _ _ _ ((_, raw_workflow_complete) :: _) =>
      pose proof (fire_workflow_complete d _ _ _ _ _ _ _ _ Hd ltac:(lia)) as H'
  | stands ?d _ _ _ _ _ _ ((_, raw_workflow_reset) :: _) =>
      let Hc := fresh "Hcards" in
      pose proof (fire_workflow_reset d _ _ _ _ _ _ _ _ Hd ltac:(lia))
        as [H' Hc]
  end;
  clear Hd; advance H'.

(** One turn of the event loop, whichever callback it runs. *)
Ltac turn :=
  lazymatch goal with
  | Hd : stands ?d _ _ _ _ _ _ ?pend
    |- ends_well _ ?d (run (S ?f) ((?t, ?msg) :: ?rest) ?d) =>
      lazymatch pend with
      | [] =>
          rewrite (run_line_alone f t msg rest d (proj2 (proj2 Hd)));
          line_arrives Hd
      | (?due, ?task) :: ?pend' =>
          destruct (N.leb_spec due t);
          [ try (exfalso; lia);
            rewrite (run_fires_before_line f t msg rest d due task pend'
                       (proj2 (proj2 Hd)) ltac:(assumption));
            timer_fires Hd
          | try (exfalso; lia);
            rewrite (run_line_first f t msg rest d due task pend'
                       (proj2 (proj2 Hd)) ltac:(assumption));
            line_arrives Hd ]
      end
  | Hd : stands ?d _ _ _ _ _ _ ?pend |- ends_well _ ?d (run (S ?f) [] ?d) =>
      lazymatch pend with
      | (?due, ?task) :: ?pend' =>
          rewrite (run_fires_after_lines f d due task pend'
                     (proj2 (proj2 Hd)));
          timer_fires Hd
      end
  end.

Ltac run_ends :=
  lazymatch goal with
  | Hd : stands ?d _ _ _ _ _ _ [], Hc : map card (agents ?d) = _
    |- ends_well _ ?d (run _ [] ?d) =>
      rewrite (run_quiet _ d (proj2 (proj2 Hd)));
      apply ends_well_done;
      [ unfold repair_histories; cbn;
        repeat split; try reflexivity; (left + right); reflexivity
      | exact Hc
      | exact (proj2 (proj2 Hd)) ]
  end.

Lemma initial_stands : stands initial idle idle idle unknown None 0 [].
Proof. repeat split. Qed.

(** Whatever the delays between the lines, the run shows the expected
    histories and ends at rest. *)
Lemma repair_run_ends_well (g1 g2 g3 g4 : N) :
  ends_well [(Some idle, Some idle, Some idle, unknown, None)] initial
    (run (turns (repair_lines g1 g2 g3 g4) initial)
       (repair_lines g1 g2 g3 g4) initial).
Proof.
  pose proof initial_stands as Hd.
  change (turns (repair_lines g1 g2 g3 g4) initial) with 12%nat.
  cbn [repair_lines arrivals].
  generalize dependent initial. intros d0 Hd.
  repeat turn.
  all: run_ends.
Qed.

End RepairRun.

(** ** Every timer fires: the turns of a run suffice *)
Section Turns.
Import Dashboard.

Lemma pending_insert x d :
  pending (set_timers (insert_timer x) d) = nested (snd x) + pending d.
Proof.
  unfold pending. cbn [set_timers timers].
  induction (timers d) as [|y l IH]; cbn [insert_timer fold_right];
    [reflexivity|].
  destruct (fst x <? fst y)%N; cbn [fold_right]; [reflexivity|].
  rewrite IH. lia.
Qed.

Lemma pending_setTimeout task delay d :
  pending (setTimeout task delay d) = nested task + pending d.
Proof. unfold setTimeout. now rewrite pending_insert. Qed.

(** A callback registers timers for one callback less than it stands
    for. *)
Lemma pending_run_task task d :
  pending (run_task task d) + 1 = nested task + pending d.
Proof.
  destruct task; cbn [run_task nested]; unfold seq, skip;
    rewrite ?pending_setTimeout; cbn [nested];
    try (destruct (match st with Some s => str_eqb s (js "DOWN")
                                | None => false end));
    unfold pending; cbn; lia.
Qed.

Lemma pending_fire d due task pend :
  timers d = (due, task) :: pend -> pending (fire 0 d) + 1 = pending d.
Proof.
  intros Ht. rewrite (fire_head _ _ _ _ Ht), pending_run_task.
  unfold pending. cbn [set_clock set_timers timers]. rewrite Ht.
  cbn [remove_nth fold_right snd]. lia.
Qed.

(** A line registers at most one timer, standing for two callbacks at
    most. *)
Lemma pending_detect msg d :
  pending (detectAgentFromRawMessage msg d) <= pending d + 2.
Proof.
  unfold detectAgentFromRawMessage.
  repeat match goal with
         | |- context [if ?c then _ else _] => destruct c
         end;
    unfold seq, skip; rewrite ?pending_setTimeout; cbn [nested];
    unfold pending; cbn; lia.
Qed.

Lemma pending_arrive t msg d : pending (arrive t msg d) <= pending d + 2.
Proof.
  unfold arrive, seq. etransitivity; [apply pending_detect|].
  unfold pending. cbn. lia.
Qed.

Lemma nothing_pending d : pending d = 0 -> timers d = [].
Proof.
  unfold pending. destruct (timers d) as [|[due task] l]; [reflexivity|].
  cbn. destruct task; cbn; lia.
Qed.

(** With the turns of [turns], or more, a run uses up its lines and leaves
    no timer behind. *)
Lemma run_settles fuel lines d :
  turns lines d <= fuel -> timers (last (run fuel lines d) d) = [].
Proof.
  unfold turns. revert lines d.
  induction fuel as [|fuel IH]; intros lines d Hf.
  - cbn. apply nothing_pending. lia.
  - destruct lines as [|[t msg] rest]; cbn [run].
    + destruct (timers d) as [|[due task] pend] eqn:Ht; [exact Ht|].
      rewrite last_cons. apply IH.
      pose proof (pending_fire d due task pend Ht). cbn in *. lia.
    + unfold timer_due.
      destruct (timers d) as [|[due task] pend] eqn:Ht;
        [|destruct (due <=? t)%N];
        rewrite last_cons; apply IH;
        try pose proof (pending_fire d due task pend Ht);
        pose proof (pending_arrive t msg d); cbn [List.length] in *; lia.
Qed.

End Turns.

(** ** The set of agents *)
Section FixedRoles.
Import Dashboard.

Lemma keeps_ids_skip : keeps_ids skip.
Proof. intros d. reflexivity. Qed.

Lemma keeps_ids_seq a b : keeps_ids a -> keeps_ids b -> keeps_ids (a ;; b).
Proof. intros Ha Hb d. unfold seq. now rewrite Hb, Ha. Qed.

Lemma keeps_ids_if (c : bool) a b :
  keeps_ids a -> keeps_ids b -> keeps_ids (if c then a else b).
Proof. now destruct c. Qed.

Lemma keeps_ids_setServerLogs f : keeps_ids (setServerLogs f).
Proof. intros d. reflexivity. Qed.

Lemma keeps_ids_setIsMonitoring b : keeps_ids (setIsMonitoring b).
Proof. intros d. reflexivity. Qed.

Lemma keeps_ids_setServerStatus s : keeps_ids (setServerStatus s).
Proof. intros d. reflexivity. Qed.

Lemma keeps_ids_setCurrentWorkflow w : keeps_ids (setCurrentWorkflow w).
Proof. intros d. reflexivity. Qed.

Lemma keeps_ids_set_clock t : keeps_ids (set_clock t).
Proof. intros d. reflexivity. Qed.

Lemma keeps_ids_set_timers f : keeps_ids (set_timers f).
Proof. intros d. reflexivity. Qed.

Lemma keeps_ids_setTimeout task delay : keeps_ids (setTimeout task delay).
Proof. intros d. reflexivity. Qed.

Lemma keeps_ids_addServerLog lvl msg ag : keeps_ids (addServerLog lvl msg ag).
Proof. intros d. reflexivity. Qed.

(** The updates of the call sites carry a status and a task, never an id. *)
Lemma keeps_ids_updateAgentStatus agentId st task :
  keeps_ids (updateAgentStatus agentId (status_task st task)).
Proof.
  intros d. cbn. unfold updated. rewrite map_map. apply map_ext.
  intros a. now destruct (str_eqb (id a) agentId).
Qed.

Lemma keeps_ids_reset : keeps_ids (setAgents reset_agents).
Proof. intros d. cbn. unfold reset_agents. now rewrite map_map. Qed.

Create HintDb ids discriminated.
#[local] Hint Resolve keeps_ids_skip keeps_ids_seq keeps_ids_if
  keeps_ids_setServerLogs keeps_ids_setIsMonitoring keeps_ids_setServerStatus
  keeps_ids_setCurrentWorkflow keeps_ids_set_clock keeps_ids_set_timers
  keeps_ids_setTimeout keeps_ids_addServerLog keeps_ids_updateAgentStatus
  keeps_ids_reset : ids.

Lemma keeps_ids_run_task task : keeps_ids (run_task task).
Proof. destruct task; cbn [run_task]; auto 10 with ids. Qed.

Lemma keeps_ids_detect msg : keeps_ids (detectAgentFromRawMessage msg).
Proof. unfold detectAgentFromRawMessage. auto 20 with ids. Qed.

Lemma keeps_ids_updateAgentFromLog logData :
  keeps_ids (updateAgentFromLog logData).
Proof. unfold updateAgentFromLog. cbv zeta. auto 20 with ids. Qed.

Lemma keeps_ids_fire k : keeps_ids (fire k).
Proof.
  intros d. unfold fire.
  destruct (nth_error (timers d) k) as [[due task]|]; [|reflexivity].
  unfold seq. now rewrite keeps_ids_run_task.
Qed.

#[local] Hint Resolve keeps_ids_run_task keeps_ids_detect
  keeps_ids_updateAgentFromLog keeps_ids_fire : ids.

Lemma keeps_ids_fetchMonitoringStatus isRunning lastActivity :
  keeps_ids (fetchMonitoringStatus isRunning lastActivity).
Proof.
  intros d. unfold fetchMonitoringStatus, seq.
  destruct lastActivity as [l|]; [|reflexivity].
  now destruct (negb (isMonitoring d) && truthy l).
Qed.

Lemma keeps_ids_step i : keeps_ids (step i).
Proof.
  destruct i as [ | |? ?| | | |? ?|r|r| |r|k|dt]; cbn [step];
    try (destruct r as [[|] e|]);
    unfold on_open, on_log, on_raw, on_error_event, on_process_exit,
      on_connection_lost, handleStartMonitoring, handleStopMonitoring,
      handleTriggerCheck_begin, handleTriggerCheck_end;
    auto 10 using keeps_ids_fetchMonitoringStatus with ids.
Qed.

Lemma one_status (a : AgentStatus) : statuses_held a = 1%nat.
Proof. unfold statuses_held. now destruct (status a). Qed.

End FixedRoles.

(** ** The monitoring supervisor *)
Section MonitoringFacts.
Import Child Monitoring.

(** The flag and the handle are set and cleared together. *)
Lemma flag_tracks_handle s : reachable s -> isMonitoring s = has_handle s.
Proof.
  induction 1 as [|o s _ IH]; [reflexivity|].
  unfold has_handle in *.
  destruct o as [now sp|term|force| |]; cbn [step];
    try reflexivity.
  - unfold startMonitoring.
    destruct (isMonitoring s) eqn:E; cbn; [congruence|].
    now destruct sp.
  - unfold stop_begin, kill.
    destruct (isMonitoring s) eqn:E, (monitoringProcess s) as [p|] eqn:P;
      cbn; rewrite ?E, ?P; try congruence.
    destruct term; cbn; rewrite ?E, ?P; congruence.
  - destruct (waiting s); [assumption|].
    unfold stop_resume, kill. cbn.
    destruct (monitoringProcess s) as [[p [|]]|] eqn:P; cbn;
      rewrite ?P; try reflexivity.
    destruct force; cbn; rewrite ?P; congruence.
Qed.

Lemma start_refused s now sp :
  reachable s -> has_handle s = true ->
  startMonitoring now sp s = (AlreadyRunning, s).
Proof.
  intros Hr Hh. unfold startMonitoring.
  now rewrite (flag_tracks_handle s Hr), Hh.
Qed.

Lemma start_spawns s now p :
  reachable s -> has_handle s = false ->
  fst (startMonitoring now (child p) s) = Started p
  /\ has_handle (snd (startMonitoring now (child p) s)) = true
  /\ spawn_count (os_log (snd (startMonitoring now (child p) s)))
     = S (spawn_count (os_log s)).
Proof.
  intros Hr Hh. unfold startMonitoring.
  rewrite (flag_tracks_handle s Hr), Hh. cbn.
  repeat split. unfold spawn_count.
  rewrite filter_app, length_app. cbn. lia.
Qed.

(** Without a handle [stopMonitoring] answers at once and changes nothing. *)
Lemma stop_not_running s term during force :
  has_handle s = false ->
  stopMonitoring term during force s = (NotRunning, s).
Proof.
  unfold has_handle, stopMonitoring, stop_begin. intros H.
  destruct (monitoringProcess s); [discriminate|].
  now rewrite orb_true_r.
Qed.

(** Once SIGTERM has been delivered the handle is marked [killed], and the
    test after the wait sends no SIGKILL, whether the process has ended or
    not. *)
Lemma no_force_kill_after_sigterm s force :
  isMonitoring s = true -> has_handle s = true ->
  signal_count SIGKILL
    (os_log (snd (stopMonitoring delivered [] force s)))
  = signal_count SIGKILL (os_log s).
Proof.
  unfold has_handle, stopMonitoring, stop_begin, stop_resume, kill.
  intros Hm Hh. rewrite Hm.
  destruct (monitoringProcess s) as [p|]; [|discriminate].
  cbn. unfold signal_count. rewrite filter_app, length_app. cbn. lia.
Qed.

End MonitoringFacts.

(** ** The crash-test supervisor *)
Section CrashTestFacts.
Import Child CrashTest.
Open Scope Z_scope.

Lemma scan_fold e schedule next completed :
  fold_left (scan_step e) schedule (next, completed)
  = (match next with
     | Some c => Some c
     | None => find (fun c => e <? time c) schedule
     end,
     completed ++ filter (fun c => time c <=? e) schedule).
Proof.
  revert next completed.
  induction schedule as [|c l IH]; intros next completed;
    cbn [fold_left find filter].
  - rewrite app_nil_r. now destruct next.
  - replace (scan_step e (next, completed) c)
      with (if time c <=? e then (next, completed ++ [c])
            else (match next with None => Some c | Some _ => next end,
                  completed))
      by (unfold scan_step; destruct (time c <=? e), next; reflexivity).
    rewrite (Z.ltb_antisym (time c) e).
    destruct (time c <=? e); cbn [negb]; rewrite IH.
    + now rewrite <- app_assoc.
    + now destruct next.
Qed.

(** The loop computes a filter and a search. *)
Lemma scan_spec e schedule :
  scan e schedule
  = (find (fun c => e <? time c) schedule,
     filter (fun c => time c <=? e) schedule).
Proof. unfold scan. now rewrite scan_fold. Qed.

Lemma start_replaces s old now term q :
  activeTestProcess s = Some old ->
  term = delivered \/ term = no_such_process ->
  fst (start now term (child q) s) = Started q
  /\ activeTestProcess (snd (start now term (child q) s))
     = Some {| Child.pid := q; killed := false |}
  /\ spawn_count (os_log (snd (start now term (child q) s)))
     = S (spawn_count (os_log s)).
Proof.
  intros Hs [-> | ->]; unfold start, kill; rewrite Hs; cbn;
    repeat split; unfold spawn_count;
    rewrite ?filter_app, ?length_app; cbn; lia.
Qed.

End CrashTestFacts.

(** ** The incident store *)
Section StoreFacts.
Import Types Store.

Variable JSON_parse : jsstring -> option FlashcardIncident.
Variable Date_getTime : jsstring -> option Z.

Lemma parse_all_fails lines :
  existsb (fun line => match JSON_parse line with
                       | None => true
                       | Some _ => false
                       end) lines = true ->
  parse_all JSON_parse lines = None.
Proof.
  induction lines as [|l ls IH]; cbn; [discriminate|].
  destruct (JSON_parse l); cbn; [|reflexivity].
  intros H. now rewrite (IH H).
Qed.


End StoreFacts.

(** ** [parseAgentLog] *)
Section AgentLogFacts.
Import AgentLog.

Variable parseFloat : jsstring -> float.

Lemma parseAgentLog_timestamp now line e :
  parseAgentLog parseFloat now line = Some e -> timestamp e = now.
Proof.
  unfold parseAgentLog.
  repeat match goal with
         | |- context [if ?c then Some _ else _] => destruct c
         end; try discriminate; now intros [= <-].
Qed.

Lemma parseAgentLog_untimed t1 t2 line :
  option_map untimed (parseAgentLog parseFloat t1 line)
  = option_map untimed (parseAgentLog parseFloat t2 line).
Proof.
  unfold parseAgentLog.
  repeat match goal with
         | |- context [if ?c then Some _ else _] => destruct c
         end; reflexivity.
Qed.

End AgentLogFacts.

(* ================================================================== *)
(** * The claims of the specification *)
(* ================================================================== *)

(** ** C1: the repair scenario *)

(** C1.  The four lines of the repair scenario are fed to the classifier in
    order, from the initial state, with any delays [g1 .. g4] between them,
    and every timer they register fires when due.  The server status goes
    from unknown to down; supervisor, executor and evaluator each go
    through idle, working, completed; the workflow marker is set, then
    cleared; and the run ends with the three agents idle on their idle
    tasks and no timer pending.  (When the lines come faster than the
    timers, the executor is set to working once more before the reset.) *)
Theorem repair_scenario (g1 g2 g3 g4 : N) :
  let r := Dashboard.scenario (Dashboard.repair_lines g1 g2 g3 g4) in
  Dashboard.server_history r = [Dashboard.unknown; Dashboard.down]
  /\ Dashboard.status_history Dashboard.supervisor r
     = [Some Dashboard.idle; Some Dashboard.working;
        Some Dashboard.completed; Some Dashboard.idle]
  /\ (exists again,
        Dashboard.status_history Dashboard.executor r
        = [Some Dashboard.idle; Some Dashboard.working;
           Some Dashboard.completed] ++ again ++ [Some Dashboard.idle]
        /\ (again = [] \/ again = [Some Dashboard.working]))
  /\ Dashboard.status_history Dashboard.evaluator r
     = [Some Dashboard.idle; Some Dashboard.working;
        Some Dashboard.completed; Some Dashboard.idle]
  /\ Dashboard.workflow_history r
     = [None; Some (js "Monitoring cycle complete"); None]
  /\ map Dashboard.card (Dashboard.agents (last r Dashboard.initial))
     = [ (Dashboard.supervisor, Dashboard.idle,
          Some (js "Monitoring server health..."));
         (Dashboard.executor, Dashboard.idle,
          Some (js "Awaiting repair instructions..."));
         (Dashboard.evaluator, Dashboard.idle,
          Some (js "Ready to verify repairs...")) ]
  /\ Dashboard.timers (last r Dashboard.initial) = [].
Proof.
  intros r.
  destruct (repair_run_ends_well g1 g2 g3 g4) as (Hh & Hc & Ht).
  change (Dashboard.repair_histories (map Dashboard.view r)) in Hh.
  destruct Hh as (H1 & H2 & H3 & H4 & H5).
  rewrite map_map in H1, H2, H3, H4, H5.
  unfold r, Dashboard.scenario. rewrite last_cons. fold r.
  repeat split; try assumption.
  destruct H3 as [H3|H3]; [exists []|exists [Some Dashboard.working]];
    (split; [exact H3|auto]).
Qed.

(** ** C2: the line framer *)

(** C2, as stated, fails: a line that spans two chunks is emitted as two
    lines, and an empty line is dropped, so that the emitted lines with
    their newlines put back are not the stream. *)
Lemma framer_breaks_round_trip :
  (LineFramer.emitted LineFramer.Stdout
     [(0%N, js "ab"); (1%N, js "c" ++ [LF])] = [js "ab"; js "c"]
   /\ unlines [js "ab"; js "c"]
      <> LineFramer.stream_text [(0%N, js "ab"); (1%N, js "c" ++ [LF])]
   /\ join_nl [js "ab"; js "c"]
      <> LineFramer.stream_text [(0%N, js "ab"); (1%N, js "c" ++ [LF])])
  /\ (LineFramer.emitted LineFramer.Stdout
        [(0%N, js "a" ++ [LF; LF] ++ js "b" ++ [LF])] = [js "a"; js "b"]
      /\ unlines [js "a"; js "b"]
         <> LineFramer.stream_text
              [(0%N, js "a" ++ [LF; LF] ++ js "b" ++ [LF])]
      /\ join_nl [js "a"; js "b"]
         <> LineFramer.stream_text
              [(0%N, js "a" ++ [LF; LF] ++ js "b" ++ [LF])]).
Proof. repeat split; try reflexivity; vm_compute; discriminate. Qed.

(** C2, amended.  When every chunk is made of whole lines (it ends with a
    newline and holds no empty or whitespace-only line), the emitted lines,
    each followed by a newline, are the stream.  The framer keeps nothing
    between chunks: what it emits for a stream followed by more chunks is
    what it emits for the stream, then what it emits for the rest; and no
    emitted line holds a newline or is blank. *)
Theorem framer_round_trip_whole_lines (p : LineFramer.Pipe)
    (chunks more : list (N * jsstring)) :
  (forall c, In c chunks -> LineFramer.whole_lines (snd c) = true) ->
  unlines (LineFramer.emitted p chunks) = LineFramer.stream_text chunks
  /\ LineFramer.emitted p (chunks ++ more)
     = LineFramer.emitted p chunks ++ LineFramer.emitted p more
  /\ (forall line, In line (LineFramer.emitted p (chunks ++ more)) ->
      ~ In LF line /\ trim line <> []).
Proof.
  intros Hwhole. split; [|split].
  - rewrite emitted_flat_map. unfold LineFramer.stream_text.
    induction chunks as [|c rest IH]; [reflexivity|].
    cbn [flat_map map List.concat]. rewrite unlines_app.
    rewrite whole_lines_roundtrip by (apply Hwhole; now left).
    f_equal. apply IH. intros c' Hc'. apply Hwhole. now right.
  - apply emitted_app.
  - intros line. rewrite emitted_flat_map, in_flat_map.
    intros (c & _ & Hline). unfold LineFramer.framed_lines in Hline.
    apply filter_In in Hline as [Hin Hkeep]. split.
    + exact (split_nl_no_LF _ _ Hin).
    + intros E. now rewrite E in Hkeep.
Qed.

Lemma framer_round_trip_whole_lines_witness :
  (forall c,
      In c [(0%N, js "up" ++ [LF] ++ js "ok" ++ [LF]); (5%N, js "done" ++ [LF])] ->
      LineFramer.whole_lines (snd c) = true)
  /\ unlines
       (LineFramer.emitted LineFramer.Stdout
          [(0%N, js "up" ++ [LF] ++ js "ok" ++ [LF]); (5%N, js "done" ++ [LF])])
     = js "up" ++ [LF] ++ js "ok" ++ [LF] ++ js "done" ++ [LF].
Proof.
  assert (H : forall c,
             In c [(0%N, js "up" ++ [LF] ++ js "ok" ++ [LF]);
                   (5%N, js "done" ++ [LF])] ->
             LineFramer.whole_lines (snd c) = true).
  { intros c [<-|[<-|[]]]; reflexivity. }
  split; [exact H|].
  exact (proj1 (framer_round_trip_whole_lines LineFramer.Stdout _ [] H)).
Defined.

(** ** C3: starting a supervisor *)

(** C3, as stated, fails for the crash-test supervisor: a second start does
    not answer AlreadyRunning.  It sends SIGTERM to the first subprocess,
    spawns another and answers success, so that two subprocesses have been
    spawned. *)
Lemma crash_test_start_twice_spawns_twice :
  fst (CrashTest.start 1000 Child.delivered (Child.child (Some 8%N))
         (snd (CrashTest.start 0 Child.delivered (Child.child (Some 7%N))
                 CrashTest.initial)))
  = CrashTest.Started (Some 8%N)
  /\ CrashTest.refused
       (fst (CrashTest.start 1000 Child.delivered (Child.child (Some 8%N))
               (snd (CrashTest.start 0 Child.delivered
                       (Child.child (Some 7%N)) CrashTest.initial))))
     = false
  /\ CrashTest.os_log
       (snd (CrashTest.start 1000 Child.delivered (Child.child (Some 8%N))
               (snd (CrashTest.start 0 Child.delivered
                       (Child.child (Some 7%N)) CrashTest.initial))))
     = [Child.spawned (Some 7%N);
        Child.signalled (Some 7%N) Child.SIGTERM;
        Child.spawned (Some 8%N)]
  /\ Child.spawn_count
       (CrashTest.os_log
          (snd (CrashTest.start 1000 Child.delivered
                  (Child.child (Some 8%N))
                  (snd (CrashTest.start 0 Child.delivered
                          (Child.child (Some 7%N)) CrashTest.initial)))))
     = 2.
Proof. repeat split. Qed.

(** C3, amended.  The monitoring supervisor, in any state it can reach:
    with a handle, [start] answers AlreadyRunning and leaves the state as it
    is, so nothing is spawned; without one, two starts in a row, the first
    of which gets its subprocess, spawn exactly one subprocess and the
    second answers AlreadyRunning.  The crash-test supervisor has no such
    guard: with a handle, and unless [kill] or [spawn] throws, its [start]
    answers success, spawns one more subprocess and holds the new handle. *)
Theorem start_guard (s1 s2 : Monitoring.Supervisor)
    (c : CrashTest.Supervisor) (old : Child.ChildProcess)
    (now now' : N) (sp sp' : Child.SpawnResult) (p q : option N)
    (tnow : Z) (term : Child.KillResult) :
  Monitoring.reachable s1 -> Monitoring.has_handle s1 = true ->
  Monitoring.reachable s2 -> Monitoring.has_handle s2 = false ->
  CrashTest.activeTestProcess c = Some old ->
  term = Child.delivered \/ term = Child.no_such_process ->
  Monitoring.startMonitoring now sp s1 = (Monitoring.AlreadyRunning, s1)
  /\ (fst (Monitoring.startMonitoring now (Child.child p) s2)
      = Monitoring.Started p
      /\ Monitoring.startMonitoring now' sp'
           (snd (Monitoring.startMonitoring now (Child.child p) s2))
         = (Monitoring.AlreadyRunning,
            snd (Monitoring.startMonitoring now (Child.child p) s2))
      /\ Child.spawn_count
           (Monitoring.os_log
              (snd (Monitoring.startMonitoring now' sp'
                      (snd (Monitoring.startMonitoring now (Child.child p)
                              s2)))))
         = S (Child.spawn_count (Monitoring.os_log s2)))
  /\ (fst (CrashTest.start tnow term (Child.child q) c) = CrashTest.Started q
      /\ CrashTest.refused (fst (CrashTest.start tnow term (Child.child q) c))
         = false
      /\ CrashTest.activeTestProcess
           (snd (CrashTest.start tnow term (Child.child q) c))
         = Some {| Child.pid := q; Child.killed := false |}
      /\ Child.spawn_count
           (CrashTest.os_log
              (snd (CrashTest.start tnow term (Child.child q) c)))
         = S (Child.spawn_count (CrashTest.os_log c))).
Proof.
  intros Hr1 Hh1 Hr2 Hh2 Hc Hterm.
  split; [now apply start_refused|]. split.
  - destruct (start_spawns s2 now p Hr2 Hh2) as (Hfst & Hh & Hn).
    assert (Hr : Monitoring.reachable
                   (snd (Monitoring.startMonitoring now (Child.child p) s2)))
      by exact (Monitoring.reach_step (Monitoring.op_start now (Child.child p))
                  s2 Hr2).
    rewrite (start_refused _ now' sp' Hr Hh). now repeat split.
  - destruct (start_replaces c old tnow term q Hc Hterm) as (Hfst & Hnew & Hn).
    repeat split; try assumption. now rewrite Hfst.
Qed.

Lemma start_guard_witness :
  Monitoring.reachable
    (snd (Monitoring.startMonitoring 0 (Child.child (Some 7%N))
            Monitoring.initial))
  /\ Monitoring.reachable Monitoring.initial
  /\ Monitoring.startMonitoring 5 (Child.child (Some 8%N))
       (snd (Monitoring.startMonitoring 0 (Child.child (Some 7%N))
               Monitoring.initial))
     = (Monitoring.AlreadyRunning,
        snd (Monitoring.startMonitoring 0 (Child.child (Some 7%N))
               Monitoring.initial))
  /\ Child.spawn_count
       (CrashTest.os_log
          (snd (CrashTest.start 1000 Child.delivered (Child.child (Some 8%N))
                  (snd (CrashTest.start 0 Child.delivered
                          (Child.child (Some 7%N)) CrashTest.initial)))))
     = 2.
Proof.
  assert (Hr1 : Monitoring.reachable
                  (snd (Monitoring.startMonitoring 0 (Child.child (Some 7%N))
                          Monitoring.initial)))
    by exact (Monitoring.reach_step
                (Monitoring.op_start 0 (Child.child (Some 7%N)))
                Monitoring.initial Monitoring.reach_initial).
  pose proof
    (start_guard
       (snd (Monitoring.startMonitoring 0 (Child.child (Some 7%N))
               Monitoring.initial))
       Monitoring.initial
       (snd (CrashTest.start 0 Child.delivered (Child.child (Some 7%N))
               CrashTest.initial))
       {| Child.pid := Some 7%N; Child.killed := false |}
       5%N 6%N (Child.child (Some 8%N)) (Child.child (Some 9%N))
       (Some 7%N) (Some 8%N) 1000%Z Child.delivered
       Hr1 eq_refl Monitoring.reach_initial eq_refl eq_refl
       (or_introl eq_refl)) as (H1 & _ & (_ & _ & _ & H3)).
  split; [exact Hr1|]. split; [exact Monitoring.reach_initial|].
  split; [exact H1|exact H3].
Defined.

(** ** C4: stopping the monitoring supervisor *)

(** Without a handle, [stop] answers NotRunning and leaves the state as it
    is. *)
Lemma stop_without_handle (s : Monitoring.Supervisor)
    (term force : Child.KillResult) (during : list Monitoring.Op) :
  Monitoring.has_handle s = false ->
  Monitoring.stopMonitoring term during force s = (Monitoring.NotRunning, s).
Proof. apply stop_not_running. Qed.

(** C4 is not met by the code in two places, shown on the supervisor of
    subprocess 4242.  (1) SIGTERM is delivered and the subprocess lives
    through the two-second wait (no [exit] event): [stop] answers success
    and clears the handle, and the only signal sent is SIGTERM -- no
    SIGKILL, because the test after the wait reads [killed], which the
    delivery of SIGTERM has set.  (2) [kill] throws: [stop] answers with
    status 500 and the handle stays. *)
Theorem stop_leaves_process_alive :
  (fst (Monitoring.stopMonitoring Child.delivered [] Child.delivered
          (snd (Monitoring.startMonitoring 0 (Child.child (Some 4242%N))
                  Monitoring.initial)))
   = Monitoring.Stopped
   /\ Monitoring.has_handle
        (snd (Monitoring.stopMonitoring Child.delivered [] Child.delivered
                (snd (Monitoring.startMonitoring 0
                        (Child.child (Some 4242%N)) Monitoring.initial))))
      = false
   /\ Monitoring.os_log
        (snd (Monitoring.stopMonitoring Child.delivered [] Child.delivered
                (snd (Monitoring.startMonitoring 0
                        (Child.child (Some 4242%N)) Monitoring.initial))))
      = [Child.spawned (Some 4242%N);
         Child.signalled (Some 4242%N) Child.SIGTERM])
  /\ (fst (Monitoring.stopMonitoring Child.unsupported [] Child.delivered
             (snd (Monitoring.startMonitoring 0 (Child.child (Some 4242%N))
                     Monitoring.initial)))
      = Monitoring.StopFailed
      /\ Monitoring.has_handle
           (snd (Monitoring.stopMonitoring Child.unsupported []
                   Child.delivered
                   (snd (Monitoring.startMonitoring 0
                           (Child.child (Some 4242%N)) Monitoring.initial))))
         = true).
Proof. repeat split. Qed.

(** ** C5: reading the incident store *)

(** C5, as stated, fails for the statistics read: a file whose only line
    does not parse is answered with the success flag and the neutral
    baseline, not with an error flag. *)
Lemma stats_read_hides_malformed_line :
  Store.unavailable Store.rejects_everything (Some (js "not json")) = true
  /\ Store.s_success
       (Store.stats_GET Store.rejects_everything (fun _ => None) 0
          (Some (js "not json"))) = true
  /\ Store.s_error
       (Store.stats_GET Store.rejects_everything (fun _ => None) 0
          (Some (js "not json"))) = None
  /\ Store.s_data
       (Store.stats_GET Store.rejects_everything (fun _ => None) 0
          (Some (js "not json"))) = Store.baseline.
Proof. repeat split. Qed.

(** C5, amended.  When the file is missing or one of its lines does not
    parse: the incident listing fails as a whole, answering status 500
    with the error flag, no records and count 0; the statistics read
    treats the store as holding zero records, so that [readIncidents] gives
    the empty list and the route answers success with the neutral
    baseline.  Neither returns a partially parsed subset. *)
Theorem store_unavailable
    (JSON_parse : jsstring -> option Types.FlashcardIncident)
    (Date_getTime : jsstring -> option Z) (now : Z)
    (file : option jsstring) :
  Store.unavailable JSON_parse file = true ->
  Store.incidents_GET JSON_parse Date_getTime file
  = {| Store.i_code := 500; Store.i_success := false;
       Store.i_error := Some (js "Failed to read incident history");
       Store.i_data := []; Store.i_count := 0 |}
  /\ Store.readIncidents JSON_parse file = []
  /\ Store.stats_GET JSON_parse Date_getTime now file
     = {| Store.s_code := 200; Store.s_success := true;
          Store.s_error := None;
          Store.s_data :=
            {| Types.uptimePercentage := 100; Types.averageRepairTime := 0;
               Types.incidentsLast24h := 0;
               Types.averageConfidence := 0 |} |}.
Proof.
  unfold Store.unavailable, Store.malformed, Store.incidents_GET,
    Store.stats_GET, Store.readIncidents.
  destruct file as [fileContent|]; [|now repeat split].
  intros H. rewrite (parse_all_fails JSON_parse _ H). now repeat split.
Qed.

Lemma store_unavailable_witness :
  Store.unavailable Store.rejects_everything (Some (js "not json")) = true
  /\ Store.i_success
       (Store.incidents_GET Store.rejects_everything (fun _ => None)
          (Some (js "not json"))) = false
  /\ Store.readIncidents Store.rejects_everything (Some (js "not json")) = [].
Proof.
  pose proof (store_unavailable Store.rejects_everything (fun _ => None) 0
                (Some (js "not json")) eq_refl) as (H1 & H2 & _).
  split; [reflexivity|]. split; [now rewrite H1|exact H2].
Defined.

(** ** C6: the milestones of the crash test *)

(** C6.  The status request answers with the report for the elapsed time,
    which it computes from the clock and the start time.  For every elapsed
    time [e] and whatever the state of the subprocess, the report over the
    fixed schedule (15 s, 60 s, 120 s) lists as completed exactly the
    milestones whose offset is at most [e], in schedule order; its next
    milestone is the first of the schedule whose offset exceeds [e], with
    [timeUntil] the offset minus [e]; that one is the earliest such
    milestone; and there is none exactly when all are completed. *)
Theorem milestones_by_elapsed_time (e now : Z) (s : CrashTest.Supervisor) :
  CrashTest.data (fst (CrashTest.POST (CrashTest.req_status now) s))
  = Some (CrashTest.report (CrashTest.elapsed_seconds now s) s)
  /\ CrashTest.crashSchedule
  = [ {| CrashTest.time := 15; CrashTest.method := js "stop";
         CrashTest.description := js "PM2 Stop" |};
      {| CrashTest.time := 60; CrashTest.method := js "kill";
         CrashTest.description := js "Process Kill" |};
      {| CrashTest.time := 120; CrashTest.method := js "stop";
         CrashTest.description := js "PM2 Stop" |} ]
  /\ CrashTest.completedCrashes (CrashTest.report e s)
     = filter (fun c => (CrashTest.time c <=? e)%Z) CrashTest.crashSchedule
  /\ CrashTest.nextCrash (CrashTest.report e s)
     = option_map (fun c => (c, (CrashTest.time c - e)%Z))
         (find (fun c => (e <? CrashTest.time c)%Z) CrashTest.crashSchedule)
  /\ (forall c u,
        CrashTest.nextCrash (CrashTest.report e s) = Some (c, u) ->
        In c CrashTest.crashSchedule /\ (e < CrashTest.time c)%Z
        /\ u = (CrashTest.time c - e)%Z
        /\ forall c', In c' CrashTest.crashSchedule ->
                      (e < CrashTest.time c')%Z ->
                      (CrashTest.time c <= CrashTest.time c')%Z)
  /\ (CrashTest.nextCrash (CrashTest.report e s) = None <->
      forall c, In c CrashTest.crashSchedule -> (CrashTest.time c <= e)%Z).
Proof.
  split; [reflexivity|]. split; [reflexivity|].
  unfold CrashTest.report. rewrite scan_spec.
  cbn [CrashTest.completedCrashes CrashTest.nextCrash].
  split; [reflexivity|]. split; [reflexivity|].
  unfold CrashTest.crashSchedule. cbn [find filter CrashTest.time].
  destruct (Z.ltb_spec e 15); [|destruct (Z.ltb_spec e 60);
                                 [|destruct (Z.ltb_spec e 120)]];
    cbn [option_map]; (split; [intros c u [= <- <-]|split]);
    cbn [In CrashTest.time];
    try discriminate;
    repeat match goal with
           | |- _ /\ _ => split
           | |- forall _, _ => intro
           | H : _ \/ _ |- _ => destruct H
           | H : False |- _ => destruct H
           | H : _ = _ |- _ => subst
           end;
    cbn [CrashTest.time] in *; try lia; try reflexivity; auto.
  all: try (exfalso;
            match goal with
            | H : forall c, _ -> _ |- _ =>
                pose proof (H _ (or_introl eq_refl));
                pose proof (H _ (or_intror (or_introl eq_refl)));
                pose proof (H _ (or_intror (or_intror (or_introl eq_refl))));
                cbn [CrashTest.time] in *; lia
            end).
Qed.

(** ** C7: [parseAgentLog] and the clock *)

(** C7, as stated, fails: the event carries the time of the call, so two
    calls on the same line at different times give events that differ. *)
Lemma parseAgentLog_reads_the_clock :
  option_map AgentLog.timestamp
    (AgentLog.parseAgentLog (fun _ => 0%float) 0 (js "Server started"))
  = Some 0%N
  /\ option_map AgentLog.timestamp
       (AgentLog.parseAgentLog (fun _ => 0%float) 1 (js "Server started"))
     = Some 1%N
  /\ AgentLog.parseAgentLog (fun _ => 0%float) 0 (js "Server started")
     <> AgentLog.parseAgentLog (fun _ => 0%float) 1 (js "Server started").
Proof.
  repeat split. intros H.
  apply (f_equal (option_map AgentLog.timestamp)) in H. discriminate H.
Qed.

(** C7, amended.  Two calls on the same line, whenever they are made, give
    events that agree in every field but the timestamp, or both give no
    event; the timestamp of an event is the time of the call that built
    it. *)
Theorem parseAgentLog_same_but_time (parseFloat : jsstring -> float)
    (t1 t2 : N) (line : jsstring) :
  option_map AgentLog.untimed (AgentLog.parseAgentLog parseFloat t1 line)
  = option_map AgentLog.untimed (AgentLog.parseAgentLog parseFloat t2 line)
  /\ (AgentLog.parseAgentLog parseFloat t1 line = None <->
      AgentLog.parseAgentLog parseFloat t2 line = None)
  /\ (forall e, AgentLog.parseAgentLog parseFloat t1 line = Some e ->
                AgentLog.timestamp e = t1).
Proof.
  pose proof (parseAgentLog_untimed parseFloat t1 t2 line) as H.
  split; [exact H|]. split.
  - destruct (AgentLog.parseAgentLog parseFloat t1 line),
      (AgentLog.parseAgentLog parseFloat t2 line); cbn in H;
      split; congruence.
  - intros e. apply parseAgentLog_timestamp.
Qed.

(** ** C8: the set of agents *)

(** C8.  In every state that the component can reach from its initial
    state -- by a stream event, a button handler, a poll result, a timer
    firing or the passing of time -- the agents are the three roles
    supervisor, executor and evaluator, in that order, and each of them has
    exactly one of the four statuses. *)
Theorem agents_fixed_roles (d : Dashboard.Dash) :
  Dashboard.reachable d ->
  map Dashboard.id (Dashboard.agents d)
  = [Dashboard.supervisor; Dashboard.executor; Dashboard.evaluator]
  /\ List.length (Dashboard.agents d) = 3
  /\ Forall (fun a => Dashboard.statuses_held a = 1) (Dashboard.agents d).
Proof.
  intros Hr.
  assert (Hids : map Dashboard.id (Dashboard.agents d) = Dashboard.roles).
  { induction Hr as [|i d _ IH]; [reflexivity|].
    now rewrite keeps_ids_step. }
  split; [exact Hids|]. split.
  - now rewrite <- (length_map Dashboard.id), Hids.
  - apply Forall_forall. intros a _. apply one_status.
Qed.

Lemma agents_fixed_roles_witness :
  Dashboard.reachable
    (Dashboard.step
       (Dashboard.sse_raw Log.info (js "LLM diagnosis: DOWN confidence: 0.92"))
       Dashboard.initial)
  /\ map Dashboard.id
       (Dashboard.agents
          (Dashboard.step
             (Dashboard.sse_raw Log.info
                (js "LLM diagnosis: DOWN confidence: 0.92"))
             Dashboard.initial))
     = [Dashboard.supervisor; Dashboard.executor; Dashboard.evaluator].
Proof.
  assert (Hr : Dashboard.reachable
                 (Dashboard.step
                    (Dashboard.sse_raw Log.info
                       (js "LLM diagnosis: DOWN confidence: 0.92"))
                    Dashboard.initial))
    by exact (Dashboard.reach_step _ _ Dashboard.reach_initial).
  split; [exact Hr|].
  exact (proj1 (agents_fixed_roles _ Hr)).
Defined.

(** ** C9: statistics of an empty store *)

(** C9.  [calculateStats] of the empty list is the neutral baseline:
    uptime 100, repair time 0, no incident in the last 24 hours,
    confidence 0.  The route answers with it for a file without records. *)
Theorem calculateStats_empty
    (JSON_parse : jsstring -> option Types.FlashcardIncident)
    (Date_getTime : jsstring -> option Z) (now : Z) :
  Store.calculateStats Date_getTime now []
  = {| Types.uptimePercentage := 100; Types.averageRepairTime := 0;
       Types.incidentsLast24h := 0; Types.averageConfidence := 0 |}
  /\ Store.readIncidents JSON_parse (Some (js "")) = []
  /\ Store.s_data (Store.stats_GET JSON_parse Date_getTime now (Some (js "")))
     = Store.calculateStats Date_getTime now [].
Proof.
  assert (Hempty : Store.readIncidents JSON_parse (Some (js "")) = [])
    by reflexivity.
  split; [reflexivity|]. split; [exact Hempty|].
  unfold Store.stats_GET. cbn [Store.s_data]. now rewrite Hempty.
Qed.

(** ** C10: the frame of [updateAgentStatus] *)

(** C10.  [updateAgentStatus agentId updates] replaces the agents list by
    one of the same length in which every entry whose id differs from
    [agentId] is the entry it was, and every entry whose id is [agentId] is
    the old entry merged with [updates] and stamped with the time of the
    call; the rest of the state is untouched. *)
Theorem updateAgentStatus_frame (agentId : jsstring)
    (updates : Dashboard.Partial_AgentStatus) (d : Dashboard.Dash)
    (i : nat) (a : Dashboard.AgentStatus) :
  nth_error (Dashboard.agents d) i = Some a ->
  let d' := Dashboard.updateAgentStatus agentId updates d in
  List.length (Dashboard.agents d') = List.length (Dashboard.agents d)
  /\ (Dashboard.id a <> agentId ->
      nth_error (Dashboard.agents d') i = Some a)
  /\ (Dashboard.id a = agentId ->
      nth_error (Dashboard.agents d') i
      = Some {| Dashboard.id :=
                  Dashboard.or_else (Dashboard.u_id updates) (Dashboard.id a);
                Dashboard.name :=
                  Dashboard.or_else (Dashboard.u_name updates)
                    (Dashboard.name a);
                Dashboard.status :=
                  Dashboard.or_else (Dashboard.u_status updates)
                    (Dashboard.status a);
                Dashboard.currentTask :=
                  Dashboard.or_keep (Dashboard.u_currentTask updates)
                    (Dashboard.currentTask a);
                Dashboard.lastUpdate := Some (Dashboard.clock d);
                Dashboard.output :=
                  Dashboard.or_keep (Dashboard.u_output updates)
                    (Dashboard.output a) |})
  /\ (Dashboard.serverLogs d', Dashboard.isMonitoring d',
      Dashboard.serverStatus d', Dashboard.currentWorkflow d',
      Dashboard.clock d', Dashboard.timers d')
     = (Dashboard.serverLogs d, Dashboard.isMonitoring d,
        Dashboard.serverStatus d, Dashboard.currentWorkflow d,
        Dashboard.clock d, Dashboard.timers d).
Proof.
  intros Ha d'. unfold d', Dashboard.updateAgentStatus.
  cbn [Dashboard.setAgents Dashboard.agents Dashboard.serverLogs
       Dashboard.isMonitoring Dashboard.serverStatus
       Dashboard.currentWorkflow Dashboard.clock Dashboard.timers].
  rewrite updated_length, (updated_nth _ _ _ _ _ _ Ha).
  split; [reflexivity|]. split; [|split; [|reflexivity]].
  - intros Hne. now apply str_eqb_neq in Hne as ->.
  - intros He. now apply str_eqb_eq in He as ->.
Qed.

Lemma updateAgentStatus_frame_witness :
  nth_error (Dashboard.agents Dashboard.initial) 1
  = Some {| Dashboard.id := Dashboard.executor;
            Dashboard.name := js "Executor Agent";
            Dashboard.status := Dashboard.idle;
            Dashboard.currentTask :=
              Some (js "Awaiting repair instructions...");
            Dashboard.lastUpdate := None;
            Dashboard.output := Some [] |}
  /\ nth_error
       (Dashboard.agents
          (Dashboard.updateAgentStatus Dashboard.supervisor
             (Dashboard.status_task Dashboard.working (js "Analyzing"))
             Dashboard.initial)) 1
     = nth_error (Dashboard.agents Dashboard.initial) 1.
Proof.
  split; [reflexivity|].
  exact (proj1 (proj2
           (updateAgentStatus_frame Dashboard.supervisor
              (Dashboard.status_task Dashboard.working (js "Analyzing"))
              Dashboard.initial 1 _ eq_refl))
           ltac:(discriminate)).
Defined.

(* ================================================================== *)
(** * Further properties of the code *)
(* ================================================================== *)

(** ** Handlers of the dashboard *)
Section HandlerFacts.
Import Dashboard Handlers.

Lemma preserves_skip P : preserves P skip.
Proof. intros d H. exact H. Qed.

Lemma preserves_seq P a b :
  preserves P a -> preserves P b -> preserves P (a ;; b).
Proof. intros Ha Hb d H. apply Hb, Ha, H. Qed.

Lemma preserves_if P (c : bool) a b :
  preserves P a -> preserves P b -> preserves P (if c then a else b).
Proof. now destruct c. Qed.

(** *** The status [error] is never set *)

Lemma no_error_update agentId st task :
  st <> error ->
  preserves no_error (updateAgentStatus agentId (status_task st task)).
Proof.
  intros Hst d H. unfold no_error in *. cbn. unfold updated.
  apply Forall_map. revert H. apply Forall_impl. intros a Ha.
  now destruct (str_eqb (id a) agentId).
Qed.

Lemma no_error_reset : preserves no_error (setAgents reset_agents).
Proof.
  intros d _. unfold no_error. cbn. unfold reset_agents.
  apply Forall_map, Forall_forall. intros a _. discriminate.
Qed.

Create HintDb no_error discriminated.
#[local] Hint Resolve preserves_skip preserves_seq preserves_if
  no_error_reset : no_error.
#[local] Hint Extern 1 (preserves no_error (updateAgentStatus _ _)) =>
  (apply no_error_update; discriminate) : no_error.
#[local] Hint Extern 4 (preserves no_error _) =>
  (let d := fresh in let H := fresh in intros d H; exact H) : no_error.

Lemma no_error_run_task task : preserves no_error (run_task task).
Proof. destruct task; cbn [run_task]; auto 10 with no_error. Qed.

Lemma no_error_detect msg : preserves no_error (detectAgentFromRawMessage msg).
Proof. unfold detectAgentFromRawMessage. auto 20 with no_error. Qed.

Lemma no_error_updateAgentFromLog logData :
  preserves no_error (updateAgentFromLog logData).
Proof. unfold updateAgentFromLog. cbv zeta. auto 20 with no_error. Qed.

Lemma no_error_fire k : preserves no_error (fire k).
Proof.
  intros d H. unfold fire.
  destruct (nth_error (timers d) k) as [[due task]|]; [|exact H].
  unfold seq. apply no_error_run_task. exact H.
Qed.

Lemma no_error_step i : preserves no_error (step i).
Proof.
  destruct i as [ | |? ?| | | |? l|r|r| |r|k|dt]; cbn [step];
    try (destruct r as [[|] e|]);
    unfold on_open, on_log, on_raw, on_error_event, on_process_exit,
      on_connection_lost, handleStartMonitoring, handleStopMonitoring,
      handleTriggerCheck_begin, handleTriggerCheck_end;
    auto 10 using no_error_detect, no_error_updateAgentFromLog,
      no_error_fire with no_error.
  intros d H. unfold fetchMonitoringStatus, seq.
  destruct l as [l|]; [|exact H].
  now destruct (negb (isMonitoring d) && truthy l).
Qed.

(** *** The log is bounded *)

Lemma addServerLog_length lvl msg ag d :
  List.length (serverLogs (addServerLog lvl msg ag d))
  = S (Nat.min 50 (List.length (serverLogs d))).
Proof.
  unfold addServerLog, setServerLogs, slice_last. cbn [serverLogs].
  rewrite length_app, length_skipn. cbn [List.length]. lia.
Qed.

Lemma log_within_addServerLog lvl msg ag :
  preserves (log_within 51) (addServerLog lvl msg ag).
Proof.
  intros d _. unfold log_within. rewrite addServerLog_length. lia.
Qed.

Create HintDb logs discriminated.
#[local] Hint Resolve preserves_skip preserves_seq preserves_if
  log_within_addServerLog : logs.
#[local] Hint Extern 4 (preserves (log_within _) _) =>
  (let d := fresh in let H := fresh in intros d H; exact H) : logs.

Lemma log_within_run_task task : preserves (log_within 51) (run_task task).
Proof. destruct task; cbn [run_task]; auto 10 with logs. Qed.

Lemma log_within_detect msg :
  preserves (log_within 51) (detectAgentFromRawMessage msg).
Proof. unfold detectAgentFromRawMessage. auto 20 with logs. Qed.

Lemma log_within_updateAgentFromLog logData :
  preserves (log_within 51) (updateAgentFromLog logData).
Proof. unfold updateAgentFromLog. cbv zeta. auto 20 with logs. Qed.

Lemma log_within_fire k : preserves (log_within 51) (fire k).
Proof.
  intros d H. unfold fire.
  destruct (nth_error (timers d) k) as [[due task]|]; [|exact H].
  unfold seq. apply log_within_run_task. exact H.
Qed.

Lemma log_within_step i : preserves (log_within 51) (step i).
Proof.
  destruct i as [ | |? ?| | | |? l|r|r| |r|k|dt]; cbn [step];
    try (destruct r as [[|] e|]);
    unfold on_open, on_log, on_raw, on_error_event, on_process_exit,
      on_connection_lost, handleStartMonitoring, handleStopMonitoring,
      handleTriggerCheck_begin, handleTriggerCheck_end;
    auto 10 using log_within_detect, log_within_updateAgentFromLog,
      log_within_fire with logs.
  intros d H. unfold fetchMonitoringStatus, seq.
  destruct l as [l|]; [|exact H].
  destruct (negb (isMonitoring d) && truthy l); [|exact H].
  now apply log_within_addServerLog.
Qed.

(** *** The classifier of raw lines leaves the clock alone *)

Create HintDb clock discriminated.
#[local] Hint Resolve preserves_skip preserves_seq preserves_if : clock.
#[local] Hint Extern 4 (preserves (fun d => clock d = _) _) =>
  (let d := fresh in let H := fresh in intros d H; exact H) : clock.

Lemma clock_detect msg t :
  preserves (fun d => clock d = t) (detectAgentFromRawMessage msg).
Proof. unfold detectAgentFromRawMessage. auto 20 with clock. Qed.

Lemma clock_updateAgentFromLog logData t :
  preserves (fun d => clock d = t) (updateAgentFromLog logData).
Proof. unfold updateAgentFromLog. cbv zeta. auto 20 with clock. Qed.

(** *** The ids in reachable states *)

Lemma reachable_roles d : reachable d -> map id (agents d) = roles.
Proof.
  induction 1 as [|i d _ IH]; [reflexivity|]. now rewrite keeps_ids_step.
Qed.

(** *** The queue of timers *)

Lemma insert_timer_length x l :
  List.length (insert_timer x l) = S (List.length l).
Proof.
  induction l as [|y l IH]; cbn [insert_timer]; [reflexivity|].
  destruct (fst x <? fst y)%N; cbn [List.length]; [reflexivity|].
  now rewrite IH.
Qed.

Lemma setTimeout_length task delay d :
  List.length (timers (setTimeout task delay d))
  = S (List.length (timers d)).
Proof. cbn. apply insert_timer_length. Qed.

Lemma remove_nth_length {A} k (l : list A) x :
  nth_error l k = Some x ->
  S (List.length (remove_nth k l)) = List.length l.
Proof.
  revert k; induction l as [|y l IH]; intros [|k]; cbn; try discriminate;
    [reflexivity|].
  intros H. now rewrite (IH _ H).
Qed.

Lemma weight_remove_nth k (l : list (N * Task)) x :
  nth_error l k = Some x ->
  fold_right (fun t n => nested (snd t) + n) 0 (remove_nth k l)
  + nested (snd x)
  = fold_right (fun t n => nested (snd t) + n) 0 l.
Proof.
  revert k; induction l as [|y l IH]; intros [|k]; cbn; try discriminate.
  - intros [= ->]. lia.
  - intros H. rewrite <- (IH _ H). lia.
Qed.

Lemma run_task_length task d :
  List.length (timers (run_task task d)) <= S (List.length (timers d)).
Proof.
  destruct task; cbn [run_task]; unfold seq, skip;
    rewrite ?setTimeout_length;
    try (destruct (match st with Some s => str_eqb s (js "DOWN")
                                | None => false end));
    cbn; lia.
Qed.

End HandlerFacts.

Section DashboardMore.
Import Dashboard Handlers.

Create HintDb server discriminated.
#[local] Hint Resolve preserves_skip preserves_seq preserves_if : server.
#[local] Hint Extern 4 (preserves (fun d => serverStatus d = _) _) =>
  (let d := fresh in let H := fresh in intros d H; exact H) : server.

Lemma server_run_task task s :
  preserves (fun d => serverStatus d = s) (run_task task).
Proof. destruct task; cbn [run_task]; auto 10 with server. Qed.

Lemma reset_cards_of_roles l :
  map id l = roles -> map card (reset_agents l) = map card initial_agents.
Proof.
  destruct l as [|a1 [|a2 [|a3 [|a4 l]]]]; try discriminate.
  cbn. intros [= -> -> ->]. reflexivity.
Qed.

End DashboardMore.

(** X1.  In every state the dashboard can reach, the log holds at most 51
    entries: [addServerLog] keeps the last 50 and appends the new one. *)
Theorem log_holds_at_most_51 (d : Dashboard.Dash) :
  Dashboard.reachable d -> List.length (Dashboard.serverLogs d) <= 51.
Proof.
  induction 1 as [|i d _ IH]; [cbn; lia|].
  now apply log_within_step.
Qed.

Lemma log_holds_at_most_51_witness :
  Dashboard.reachable
    (Dashboard.step (Dashboard.sse_error (js "boom")) Dashboard.initial)
  /\ List.length
       (Dashboard.serverLogs
          (Dashboard.step (Dashboard.sse_error (js "boom"))
             Dashboard.initial)) <= 51.
Proof.
  assert (Hr : Dashboard.reachable
                 (Dashboard.step (Dashboard.sse_error (js "boom"))
                    Dashboard.initial))
    by exact (Dashboard.reach_step _ _ Dashboard.reach_initial).
  split; [exact Hr|exact (log_holds_at_most_51 _ Hr)].
Defined.

(** X2.  Whatever the classifier makes of it, a raw line ends up as the
    newest entry of the log, with its level, no agent, and the time of its
    arrival; and so does the message of a log event, with its level and
    its agent. *)
Theorem stream_line_is_logged (lvl : Log.Level) (msg : jsstring)
    (logData : Dashboard.LogData) (d : Dashboard.Dash) :
  (exists older,
      Dashboard.serverLogs (Dashboard.on_raw lvl msg d)
      = older ++ [ {| Dashboard.timestamp := Dashboard.clock d;
                      Dashboard.level := lvl;
                      Dashboard.message := msg;
                      Dashboard.agent := None |} ])
  /\ (exists older,
        Dashboard.serverLogs (Dashboard.on_log logData d)
        = older ++ [ {| Dashboard.timestamp := Dashboard.clock d;
                        Dashboard.level := Dashboard.ld_level logData;
                        Dashboard.message := Dashboard.ld_message logData;
                        Dashboard.agent := Dashboard.ld_agent logData |} ]).
Proof.
  unfold Dashboard.on_raw, Dashboard.on_log, Dashboard.seq,
    Dashboard.addServerLog.
  cbn [Dashboard.setServerLogs Dashboard.serverLogs].
  rewrite (clock_detect msg (Dashboard.clock d) d eq_refl).
  rewrite (clock_updateAgentFromLog logData (Dashboard.clock d) d eq_refl).
  split; now eexists.
Qed.

(** X3.  No state the dashboard can reach has an agent with the status
    [error]: no handler, classifier or timer sets it. *)
Theorem error_status_is_never_set (d : Dashboard.Dash) :
  Dashboard.reachable d ->
  Forall (fun a => Dashboard.status a <> Dashboard.error) (Dashboard.agents d).
Proof.
  induction 1 as [|i d _ IH].
  - repeat constructor; discriminate.
  - now apply no_error_step.
Qed.

Lemma error_status_is_never_set_witness :
  Dashboard.reachable
    (Dashboard.step (Dashboard.sse_raw Log.info (js "CRASH"))
       Dashboard.initial)
  /\ Forall (fun a => Dashboard.status a <> Dashboard.error)
       (Dashboard.agents
          (Dashboard.step (Dashboard.sse_raw Log.info (js "CRASH"))
             Dashboard.initial)).
Proof.
  assert (Hr : Dashboard.reachable
                 (Dashboard.step (Dashboard.sse_raw Log.info (js "CRASH"))
                    Dashboard.initial))
    by exact (Dashboard.reach_step _ _ Dashboard.reach_initial).
  split; [exact Hr|exact (error_status_is_never_set _ Hr)].
Defined.

(** X4.  In a reachable state, a successful stop request puts the three
    cards back to idle on their idle tasks, clears the workflow marker and
    the monitoring flag, and leaves the server status and the pending
    timers as they are: scheduled transitions are not cancelled. *)
Theorem stop_resets_cards_keeps_timers (d : Dashboard.Dash) (e : jsstring) :
  Dashboard.reachable d ->
  let d' := Dashboard.handleStopMonitoring (Dashboard.envelope true e) d in
  map Dashboard.card (Dashboard.agents d')
  = [ (Dashboard.supervisor, Dashboard.idle,
       Some (js "Monitoring server health..."));
      (Dashboard.executor, Dashboard.idle,
       Some (js "Awaiting repair instructions..."));
      (Dashboard.evaluator, Dashboard.idle,
       Some (js "Ready to verify repairs...")) ]
  /\ Dashboard.currentWorkflow d' = None
  /\ Dashboard.isMonitoring d' = false
  /\ Dashboard.serverStatus d' = Dashboard.serverStatus d
  /\ Dashboard.timers d' = Dashboard.timers d.
Proof.
  intros Hr d'.
  assert (Ha : Dashboard.agents d'
               = Dashboard.reset_agents (Dashboard.agents d)) by reflexivity.
  rewrite Ha, (reset_cards_of_roles _ (reachable_roles d Hr)).
  now repeat split.
Qed.

Lemma stop_resets_cards_keeps_timers_witness :
  Dashboard.reachable
    (Dashboard.step
       (Dashboard.sse_raw Log.info (js "POST-REPAIR Verification passed"))
       Dashboard.initial)
  /\ map Dashboard.status
       (Dashboard.agents
          (Dashboard.handleStopMonitoring (Dashboard.envelope true [])
             (Dashboard.step
                (Dashboard.sse_raw Log.info
                   (js "POST-REPAIR Verification passed"))
                Dashboard.initial)))
     = [Dashboard.idle; Dashboard.idle; Dashboard.idle]
  /\ Dashboard.timers
       (Dashboard.handleStopMonitoring (Dashboard.envelope true [])
          (Dashboard.step
             (Dashboard.sse_raw Log.info
                (js "POST-REPAIR Verification passed"))
             Dashboard.initial))
     = [(1000%N, Dashboard.raw_complete_executor)].
Proof.
  assert (Hr : Dashboard.reachable
                 (Dashboard.step
                    (Dashboard.sse_raw Log.info
                       (js "POST-REPAIR Verification passed"))
                    Dashboard.initial))
    by exact (Dashboard.reach_step _ _ Dashboard.reach_initial).
  pose proof (stop_resets_cards_keeps_timers _ [] Hr) as (_ & _ & _ & _ & Ht).
  split; [exact Hr|]. split; [reflexivity|].
  rewrite Ht. reflexivity.
Defined.

(** X5.  The server status changes only when a raw line or a log event is
    classified: a timer firing, a button handler, a poll result, an error
    or exit event, or the passing of time leaves it as it is. *)
Theorem server_status_changes_only_by_lines (i : Dashboard.Input)
    (d : Dashboard.Dash) :
  match i with
  | Dashboard.sse_raw _ _ | Dashboard.sse_log _ => True
  | _ => Dashboard.serverStatus (Dashboard.step i d)
         = Dashboard.serverStatus d
  end.
Proof.
  destruct i as [ | |? ?| | | |? l|r|r| |r|k|dt]; cbn [Dashboard.step];
    try exact I; try reflexivity;
    try (destruct r as [[|] e|]; reflexivity).
  - unfold Dashboard.fetchMonitoringStatus, Dashboard.seq.
    destruct l as [l|]; [|reflexivity].
    now destruct (negb (Dashboard.isMonitoring d) && truthy l).
  - unfold Dashboard.fire.
    destruct (nth_error (Dashboard.timers d) k) as [[due task]|];
      [|reflexivity].
    unfold Dashboard.seq. now apply server_run_task.
Qed.

(** X6.  A timer that fires never lengthens the queue of pending timers,
    and the callbacks the queue still stands for become fewer: timers
    cannot re-arm one another for ever. *)
Theorem firing_shrinks_the_queue (k : nat) (d : Dashboard.Dash) :
  List.length (Dashboard.timers (Dashboard.fire k d))
  <= List.length (Dashboard.timers d)
  /\ (nth_error (Dashboard.timers d) k <> None ->
      Dashboard.pending (Dashboard.fire k d) < Dashboard.pending d).
Proof.
  unfold Dashboard.fire.
  destruct (nth_error (Dashboard.timers d) k) as [[due task]|] eqn:E.
  - unfold Dashboard.seq. split.
    + etransitivity; [apply run_task_length|].
      cbn [Dashboard.set_clock Dashboard.set_timers Dashboard.timers].
      now rewrite (remove_nth_length _ _ _ E).
    + intros _.
      pose proof (pending_run_task task
                    (Dashboard.set_clock (N.max (Dashboard.clock d) due)
                       (Dashboard.set_timers (Dashboard.remove_nth k) d)))
        as H.
      pose proof (weight_remove_nth _ _ _ E) as W.
      unfold Dashboard.pending in *.
      cbn [Dashboard.set_clock Dashboard.set_timers Dashboard.timers snd] in *.
      lia.
  - split; [lia|congruence].
Qed.

(** ** [parseAgentLog] and blank lines *)
Section BlankLines.

Lemma startsWith_In s p c : startsWith s p = true -> In c p -> In c s.
Proof.
  revert s; induction p as [|y p IH]; intros s H Hc; [destruct Hc|].
  destruct s as [|x s]; [discriminate|]. cbn in H.
  apply andb_true_iff in H as [Hx Hp]. apply N.eqb_eq in Hx as ->.
  destruct Hc as [<-|Hc]; [now left|right; now apply IH].
Qed.

Lemma includes_In s p c : includes s p = true -> In c p -> In c s.
Proof.
  induction s as [|x s IH]; cbn [includes]; intros H Hc.
  - rewrite orb_false_r in H. exact (startsWith_In _ _ _ H Hc).
  - apply orb_true_iff in H as [H|H];
      [exact (startsWith_In _ _ _ H Hc)|right; now apply IH].
Qed.

Lemma dropWhile_nil {A} (f : A -> bool) l :
  dropWhile f l = [] -> forall x, In x l -> f x = true.
Proof.
  induction l as [|y l IH]; cbn; intros H x Hx; [destruct Hx|].
  destruct (f y) eqn:E; [|discriminate].
  destruct Hx as [<-|Hx]; [exact E|now apply IH].
Qed.

Lemma dropWhile_head {A} (f : A -> bool) l x l' :
  dropWhile f l = x :: l' -> f x = false /\ In x l.
Proof.
  induction l as [|y l IH]; cbn; [discriminate|].
  destruct (f y) eqn:E.
  - intros H. destruct (IH H). split; [assumption|now right].
  - intros [= <- <-]. split; [exact E|now left].
Qed.

(** A blank line holds whitespace only. *)
Lemma trim_nil s c : trim s = [] -> In c s -> is_whitespace c = true.
Proof.
  unfold trim, trimEnd, trimStart. intros H Hc.
  destruct (dropWhile is_whitespace s) as [|x t] eqn:E.
  - exact (dropWhile_nil _ _ E _ Hc).
  - destruct (dropWhile_head _ _ _ _ E) as [Hx _].
    assert (Hr : dropWhile is_whitespace (rev (x :: t)) = []).
    { apply (f_equal (@rev N)) in H. now rewrite rev_involutive in H. }
    rewrite (dropWhile_nil _ _ Hr x) in Hx; [discriminate|].
    apply -> in_rev. now left.
Qed.

(** A blank line holds no text with a character that is not whitespace. *)
Lemma blank_includes s p c :
  trim s = [] -> In c p -> is_whitespace c = false -> includes s p = false.
Proof.
  intros Hs Hc Hw. destruct (includes s p) eqn:E; [|reflexivity].
  rewrite (trim_nil s c Hs (includes_In _ _ _ E Hc)) in Hw. discriminate.
Qed.

End BlankLines.

(** X7.  [parseAgentLog] gives no event exactly for the lines that are
    empty or whitespace-only; for any other line it gives one event, whose
    message is the line as it came. *)
Theorem parseAgentLog_skips_blank_lines_only
    (parseFloat : jsstring -> float) (now : N) (line : jsstring) :
  (AgentLog.parseAgentLog parseFloat now line = None <-> trim line = [])
  /\ (forall e, AgentLog.parseAgentLog parseFloat now line = Some e ->
                AgentLog.message e = line).
Proof.
  split; [split|].
  - unfold AgentLog.parseAgentLog.
    repeat match goal with
           | |- context [if ?c then Some _ else _] =>
               lazymatch c with
               | truthy _ => fail
               | _ => destruct c
               end
           end; try discriminate.
    destruct (trim line); [reflexivity|discriminate].
  - intros Hb. unfold AgentLog.parseAgentLog.
    rewrite (blank_includes line (js "Supervisor diagnosis:") 83%N Hb)
      by (cbn; auto).
    rewrite (blank_includes line (js "Executor:") 69%N Hb) by (cbn; auto).
    rewrite (blank_includes line (js "PM2") 80%N Hb) by (cbn; auto).
    rewrite (blank_includes line (js "restart") 114%N Hb) by (cbn; auto).
    rewrite (blank_includes line (js "Evaluator:") 69%N Hb) by (cbn; auto).
    rewrite (blank_includes line (js "Flashcard written") 70%N Hb)
      by (cbn; auto).
    rewrite (blank_includes line (js "Starting monitoring cycle") 83%N Hb)
      by (cbn; auto).
    rewrite (blank_includes line (js "MONITORING CYCLE SUMMARY") 77%N Hb)
      by (cbn; auto).
    rewrite (blank_includes line (js "Server is DOWN") 83%N Hb)
      by (cbn; auto).
    rewrite (blank_includes line (js "Server appears to be UP") 83%N Hb)
      by (cbn; auto).
    rewrite (blank_includes line (js "LLM diagnosis:") 76%N Hb)
      by (cbn; auto).
    rewrite (blank_includes line (js "ERROR") 69%N Hb) by (cbn; auto).
    rewrite (blank_includes line (js "Failed") 70%N Hb) by (cbn; auto).
    cbn [orb]. now rewrite Hb.
  - intros e. unfold AgentLog.parseAgentLog.
    repeat match goal with
           | |- context [if ?c then Some _ else _] => destruct c
           end; try discriminate; now intros [= <-].
Qed.

(** ** The supervisors *)

(** X8.  As time passes the completed milestones of the crash test only
    grow: the list reported for a later elapsed time extends the list
    reported for an earlier one, and never holds more than the three
    milestones of the schedule. *)
Theorem completed_milestones_only_grow (e e' : Z)
    (s s' : CrashTest.Supervisor) :
  (e <= e')%Z ->
  (exists more,
      CrashTest.completedCrashes (CrashTest.report e' s')
      = CrashTest.completedCrashes (CrashTest.report e s) ++ more)
  /\ List.length (CrashTest.completedCrashes (CrashTest.report e s)) <= 3.
Proof.
  intros Hle. unfold CrashTest.report. rewrite !scan_spec.
  cbn [CrashTest.completedCrashes].
  unfold CrashTest.crashSchedule. cbn [filter CrashTest.time].
  destruct (Z.leb_spec 15 e), (Z.leb_spec 60 e), (Z.leb_spec 120 e),
    (Z.leb_spec 15 e'), (Z.leb_spec 60 e'), (Z.leb_spec 120 e');
    try lia; (split; [eexists; cbn [app]; reflexivity|cbn; lia]).
Qed.

Lemma completed_milestones_only_grow_witness :
  (20 <= 70)%Z
  /\ List.length
       (CrashTest.completedCrashes
          (CrashTest.report 20 CrashTest.initial)) <= 3.
Proof.
  split; [lia|].
  exact (proj2 (completed_milestones_only_grow 20 70 CrashTest.initial
                  CrashTest.initial ltac:(lia))).
Defined.

(** X9.  When the crash-test supervisor holds a handle and [kill] does not
    throw, [stop] answers success and drops both the handle and the start
    time; a status request then reports a test that is not running, zero
    elapsed seconds, nothing completed and the first milestone 15 seconds
    away; and a second [stop] is refused and changes nothing. *)
Theorem crash_test_stop_clears (s : CrashTest.Supervisor)
    (old : Child.ChildProcess) (term term' : Child.KillResult) (now : Z) :
  CrashTest.activeTestProcess s = Some old ->
  term = Child.delivered \/ term = Child.no_such_process ->
  fst (CrashTest.stop term s) = CrashTest.Stopped
  /\ CrashTest.activeTestProcess (snd (CrashTest.stop term s)) = None
  /\ CrashTest.testStartTime (snd (CrashTest.stop term s)) = None
  /\ CrashTest.stop term' (snd (CrashTest.stop term s))
     = (CrashTest.NothingToStop, snd (CrashTest.stop term s))
  /\ (exists first,
        nth_error CrashTest.crashSchedule 0 = Some first
        /\ CrashTest.data
             (CrashTest.status now (snd (CrashTest.stop term s)))
           = Some {| CrashTest.isRunning := false;
                     CrashTest.elapsedTime := 0;
                     CrashTest.nextCrash := Some (first, 15%Z);
                     CrashTest.completedCrashes := [];
                     CrashTest.totalDuration := 150;
                     CrashTest.status_pid := None |}).
Proof.
  intros Hs [-> | ->]; unfold CrashTest.stop, CrashTest.kill; rewrite Hs;
    cbn; repeat split; eexists; split; reflexivity.
Qed.

Lemma crash_test_stop_clears_witness :
  CrashTest.activeTestProcess
    (snd (CrashTest.start 0 Child.delivered (Child.child (Some 7%N))
            CrashTest.initial))
  = Some {| Child.pid := Some 7%N; Child.killed := false |}
  /\ CrashTest.os_log
       (snd (CrashTest.stop Child.delivered
               (snd (CrashTest.start 0 Child.delivered
                       (Child.child (Some 7%N)) CrashTest.initial))))
     = [Child.spawned (Some 7%N); Child.signalled (Some 7%N) Child.SIGTERM]
  /\ CrashTest.activeTestProcess
       (snd (CrashTest.stop Child.delivered
               (snd (CrashTest.start 0 Child.delivered
                       (Child.child (Some 7%N)) CrashTest.initial))))
     = None.
Proof.
  split; [reflexivity|]. split; [reflexivity|].
  exact (proj1 (proj2
           (crash_test_stop_clears
              (snd (CrashTest.start 0 Child.delivered
                      (Child.child (Some 7%N)) CrashTest.initial))
              {| Child.pid := Some 7%N; Child.killed := false |}
              Child.delivered Child.delivered 0%Z eq_refl
              (or_introl eq_refl)))).
Defined.

(** X10.  Whenever [stopMonitoring] answers success, whatever happened
    during its wait, the supervisor is left without handle and with the
    monitoring flag down, so that a further stop is answered NotRunning
    and changes nothing. *)
Theorem successful_stop_leaves_no_handle (s : Monitoring.Supervisor)
    (term force term' force' : Child.KillResult)
    (during during' : list Monitoring.Op) :
  Monitoring.success (fst (Monitoring.stopMonitoring term during force s))
  = true ->
  Monitoring.has_handle (snd (Monitoring.stopMonitoring term during force s))
  = false
  /\ Monitoring.isMonitoring
       (snd (Monitoring.stopMonitoring term during force s)) = false
  /\ Monitoring.stopMonitoring term' during' force'
       (snd (Monitoring.stopMonitoring term during force s))
     = (Monitoring.NotRunning,
        snd (Monitoring.stopMonitoring term during force s)).
Proof.
  intros Hok.
  assert (H : Monitoring.has_handle
                (snd (Monitoring.stopMonitoring term during force s)) = false
              /\ Monitoring.isMonitoring
                   (snd (Monitoring.stopMonitoring term during force s))
                 = false);
    [|destruct H as [Hh Hm]; split; [exact Hh|split; [exact Hm|]];
      now apply stop_not_running].
  revert Hok.
  unfold Monitoring.stopMonitoring, Monitoring.stop_begin.
  destruct (negb (Monitoring.isMonitoring s)
            || match Monitoring.monitoringProcess s with
               | None => true
               | Some _ => false
               end); [discriminate|].
  destruct (Monitoring.kill Child.SIGTERM term s) as [s1|]; [|discriminate].
  cbn [fst snd].
  generalize (Monitoring.steps during
                (Monitoring.set_waiting (S (Monitoring.waiting s1)) s1)).
  intros s2. unfold Monitoring.stop_resume, Monitoring.kill.
  cbn [Monitoring.set_waiting Monitoring.monitoringProcess].
  destruct (Monitoring.monitoringProcess s2) as [[p [|]]|];
    try (now split); destruct force; cbn; try discriminate; now split.
Qed.

Lemma successful_stop_leaves_no_handle_witness :
  Monitoring.success
    (fst (Monitoring.stopMonitoring Child.delivered [Monitoring.op_exit]
            Child.delivered
            (snd (Monitoring.startMonitoring 0 (Child.child (Some 7%N))
                    Monitoring.initial)))) = true
  /\ Monitoring.has_handle
       (snd (Monitoring.stopMonitoring Child.delivered [Monitoring.op_exit]
               Child.delivered
               (snd (Monitoring.startMonitoring 0 (Child.child (Some 7%N))
                       Monitoring.initial)))) = false.
Proof.
  split; [reflexivity|].
  exact (proj1 (successful_stop_leaves_no_handle
                  (snd (Monitoring.startMonitoring 0 (Child.child (Some 7%N))
                          Monitoring.initial))
                  Child.delivered Child.delivered Child.delivered
                  Child.delivered [Monitoring.op_exit] [] eq_refl)).
Defined.


(** ** The status request and the single check of [/api/monitoring] *)
Section MonitoringRouteFacts.
Import MonitoringRoute.

(** The last piece of a join is what follows its last newline. *)
Lemma join_last (pieces : list jsstring) :
  exists before,
    join_nl pieces = before ++ last pieces []
    /\ (before = [] \/ exists b, before = b ++ [LF]).
Proof.
  induction pieces as [|p ps IH]; [exists []; split; auto|].
  destruct ps as [|q ps]; [exists []; split; auto|].
  destruct IH as (before & E & Hb).
  exists (p ++ LF :: before). split.
  - change (join_nl (p :: q :: ps)) with (p ++ LF :: join_nl (q :: ps)).
    change (last (p :: q :: ps) []) with (last (q :: ps) []).
    rewrite E, <- app_assoc. reflexivity.
  - right. destruct Hb as [->|(b & ->)].
    + now exists p.
    + exists (p ++ LF :: b). now rewrite <- app_assoc.
Qed.

Lemma last_In {A} (l : list A) (d : A) : l <> [] -> In (last l d) l.
Proof.
  induction l as [|x l IH]; [congruence|]. intros _.
  destruct l as [|y l]; [now left|]. right. apply IH. discriminate.
Qed.

Lemma findIndex_Some {A} (f : A -> bool) l n :
  findIndex f l = Some n ->
  exists before x after,
    l = before ++ x :: after /\ List.length before = n /\ f x = true
    /\ forall y, In y before -> f y = false.
Proof.
  revert n; induction l as [|x l IH]; intros n; cbn; [discriminate|].
  destruct (f x) eqn:E.
  - intros [= <-]. exists [], x, l. repeat split; auto. intros y [].
  - destruct (findIndex f l) as [m|]; [|discriminate].
    intros [= <-]. destruct (IH m eq_refl) as (b & y & a & -> & Hl & Hy & Hb).
    exists (x :: b), y, a. repeat split; cbn; auto.
    intros z [<-|Hz]; auto.
Qed.

Lemma findIndex_None {A} (f : A -> bool) l :
  findIndex f l = None <-> forall y, In y l -> f y = false.
Proof.
  induction l as [|x l IH]; cbn; [split; auto; intros _ y []|].
  destruct (f x) eqn:E.
  - split; [discriminate|]. intros H. rewrite (H x) in E; auto. discriminate.
  - destruct (findIndex f l); cbn.
    + split; [discriminate|]. intros H.
      assert (Hn : Some n = None)
        by (apply IH; intros y Hy; apply H; now right).
      discriminate Hn.
    + split; auto. intros _ y [<-|Hy]; auto. now apply IH.
Qed.

End MonitoringRouteFacts.

(** X12.  Whenever the status request reports a last activity, the
    supervisor is not monitoring, and the text reported is what follows the
    last newline of the trimmed log file: it holds no newline, and the
    trimmed log is that text preceded by nothing or by lines ending in a
    newline. *)
Theorem last_activity_is_last_line (size : option N)
    (content : option jsstring) (s : Monitoring.Supervisor) (l : jsstring) :
  MonitoringRoute.lastActivity (MonitoringRoute.GET size content s) = Some l ->
  Monitoring.isMonitoring s = false
  /\ ~ In LF l
  /\ exists c before,
       content = Some c /\ trim c = before ++ l
       /\ (before = [] \/ exists b, before = b ++ [LF]).
Proof.
  unfold MonitoringRoute.GET.
  destruct (Monitoring.isMonitoring s); cbn; [discriminate|].
  destruct size as [n|], content as [c|]; cbn; try discriminate.
  intros [= <-]. unfold MonitoringRoute.lastLogEntry.
  split; [reflexivity|]. split.
  - apply (split_nl_no_LF (trim c)). apply last_In.
    destruct (split_nl_cons (trim c)) as (p & ps & ->). discriminate.
  - destruct (join_last (split_nl (trim c))) as (before & E & Hb).
    rewrite join_split in E. now exists c, before.
Qed.

Lemma last_activity_is_last_line_witness :
  MonitoringRoute.lastActivity
    (MonitoringRoute.GET (Some 12%N)
       (Some (js "up at 9" ++ [LF] ++ js "down at 10" ++ [LF]))
       Monitoring.initial)
  = Some (js "down at 10")
  /\ ~ In LF (js "down at 10").
Proof.
  split; [reflexivity|].
  exact (proj1 (proj2
           (last_activity_is_last_line (Some 12%N)
              (Some (js "up at 9" ++ [LF] ++ js "down at 10" ++ [LF]))
              Monitoring.initial (js "down at 10") eq_refl))).
Defined.



(** X14.  The summary that the single check extracts from the output of
    the check is missing exactly when no output line holds the marker
    MONITORING CYCLE SUMMARY.  Otherwise it is a run of consecutive output
    lines, ten at most, that starts at the first line holding the marker,
    and it is cut short only at the end of the output. *)
Theorem summary_is_a_window (now : N) (stdout stderr : jsstring) :
  (MonitoringRoute.c_parsed
     (MonitoringRoute.triggerSingleCheck now
        (MonitoringRoute.exited stdout stderr)) = None <->
   forall line, In line (split_nl stdout) ->
                includes line (js "MONITORING CYCLE SUMMARY") = false)
  /\ (forall lines,
        MonitoringRoute.c_parsed
          (MonitoringRoute.triggerSingleCheck now
             (MonitoringRoute.exited stdout stderr)) = Some lines ->
        exists before first rest after,
          split_nl stdout = before ++ lines ++ after
          /\ lines = first :: rest
          /\ includes first (js "MONITORING CYCLE SUMMARY") = true
          /\ (forall line, In line before ->
                includes line (js "MONITORING CYCLE SUMMARY") = false)
          /\ List.length lines <= 10
          /\ (after <> [] -> List.length lines = 10)).
Proof.
  cbn [MonitoringRoute.triggerSingleCheck MonitoringRoute.c_parsed].
  unfold MonitoringRoute.summaryLines, MonitoringRoute.summary_marker.
  split.
  - rewrite <- findIndex_None.
    destruct (MonitoringRoute.findIndex _ (split_nl stdout));
      split; congruence.
  - intros lines.
    destruct (MonitoringRoute.findIndex _ (split_nl stdout)) as [n|] eqn:E;
      [|discriminate].
    intros Hl.
    assert (Hlines : lines = firstn 10 (skipn n (split_nl stdout)))
      by congruence.
    clear Hl.
    destruct (findIndex_Some _ _ _ E) as (before & x & rest0 & Hsplit & Hn & Hx & Hb).
    rewrite Hsplit in *.
    assert (Hs : skipn n (before ++ x :: rest0) = x :: rest0).
    { rewrite <- Hn, skipn_app, skipn_all, Nat.sub_diag. reflexivity. }
    rewrite Hs in Hlines. subst lines.
    exists before, x, (firstn 9 rest0), (skipn 10 (x :: rest0)).
    split; [|split; [|split; [|split; [|split]]]].
    + now rewrite (firstn_skipn 10 (x :: rest0)).
    + reflexivity.
    + exact Hx.
    + exact Hb.
    + rewrite length_firstn. lia.
    + intros Hafter. rewrite length_firstn.
      destruct (Nat.le_gt_cases (List.length (x :: rest0)) 10) as [Hle|Hgt];
        [|lia].
      exfalso. apply Hafter. now apply skipn_all2.
Qed.

(** ** Sorting and counting incidents *)
Section IncidentFacts.
Import Types Store Overview.

Variable Date_getTime : jsstring -> option Z.

Lemma insert_sorted_perm x l :
  Permutation (x :: l) (insert_sorted Date_getTime x l).
Proof.
  induction l as [|y l IH]; cbn [insert_sorted]; [reflexivity|].
  destruct (newer Date_getTime y x); [|reflexivity].
  rewrite perm_swap. now constructor.
Qed.

Lemma sort_perm l : Permutation l (sort_newest_first Date_getTime l).
Proof.
  induction l as [|x l IH]; cbn; [constructor|].
  rewrite <- insert_sorted_perm. now constructor.
Qed.

Lemma newer_stamp a b :
  Date_getTime (detected_at a) <> None ->
  Date_getTime (detected_at b) <> None ->
  newer Date_getTime a b
  = (stamp Date_getTime b <? stamp Date_getTime a)%Z.
Proof.
  unfold newer, stamp.
  now destruct (Date_getTime (detected_at a)), (Date_getTime (detected_at b)).
Qed.

Lemma insert_sorted_sorted x l :
  Date_getTime (detected_at x) <> None ->
  (forall y, In y l -> Date_getTime (detected_at y) <> None) ->
  StronglySorted (fun a b => (stamp Date_getTime b <= stamp Date_getTime a)%Z) l ->
  StronglySorted (fun a b => (stamp Date_getTime b <= stamp Date_getTime a)%Z)
    (insert_sorted Date_getTime x l).
Proof.
  intros Hx Hl Hs. induction Hs as [|y l Hs IH Hy]; cbn [insert_sorted].
  - repeat constructor.
  - rewrite newer_stamp by (auto; apply Hl; now left).
    destruct (Z.ltb_spec (stamp Date_getTime x) (stamp Date_getTime y)).
    + constructor; [apply IH; intros z Hz; apply Hl; now right|].
      rewrite <- insert_sorted_perm. constructor; [lia|exact Hy].
    + constructor; [now constructor|].
      constructor; [lia|]. revert Hy. apply Forall_impl. intros z Hz. lia.
Qed.

Lemma sort_sorted l :
  (forall y, In y l -> Date_getTime (detected_at y) <> None) ->
  StronglySorted (fun a b => (stamp Date_getTime b <= stamp Date_getTime a)%Z)
    (sort_newest_first Date_getTime l).
Proof.
  induction l as [|x l IH]; intros Hl; cbn; [constructor|].
  apply insert_sorted_sorted.
  - apply Hl. now left.
  - intros y Hy. apply Hl. right.
    now apply (Permutation_in _ (Permutation_sym (sort_perm l))).
  - apply IH. intros y Hy. apply Hl. now right.
Qed.

Lemma filter_length_perm {A} (f : A -> bool) l l' :
  Permutation l l' ->
  List.length (filter f l) = List.length (filter f l').
Proof.
  induction 1 as [|x l l' _ IH|x y l|l l' l'' _ IH1 _ IH2]; cbn;
    try reflexivity.
  - destruct (f x); cbn; now rewrite IH.
  - now destruct (f x), (f y).
  - now rewrite IH1.
Qed.

End IncidentFacts.



(** X16.  The count of incidents in the last 24 hours and the uptime
    percentage do not depend on the order of the records: two lists that
    hold the same records give the same two figures, and the count never
    exceeds the number of records. *)
Theorem window_count_ignores_order (Date_getTime : jsstring -> option Z)
    (now : Z) (l l' : list Types.FlashcardIncident) :
  Permutation l l' ->
  Types.incidentsLast24h (Store.calculateStats Date_getTime now l)
  = Types.incidentsLast24h (Store.calculateStats Date_getTime now l')
  /\ Types.uptimePercentage (Store.calculateStats Date_getTime now l)
     = Types.uptimePercentage (Store.calculateStats Date_getTime now l')
  /\ Types.incidentsLast24h (Store.calculateStats Date_getTime now l)
     <= List.length l.
Proof.
  intros Hp.
  destruct l as [|x l].
  - apply Permutation_nil in Hp as ->. repeat split. cbn. lia.
  - destruct l' as [|x' l'];
      [apply Permutation_sym, Permutation_nil in Hp; discriminate|].
    unfold Store.calculateStats.
    cbn [Types.incidentsLast24h Types.uptimePercentage].
    split; [apply filter_length_perm, Hp|]. split.
    + now rewrite (filter_length_perm _ _ _ Hp).
    + apply filter_length_le.
Qed.

Lemma window_count_ignores_order_witness :
  Permutation
    [Overview.sample (js "aa") true; Overview.sample (js "b") false]
    [Overview.sample (js "b") false; Overview.sample (js "aa") true]
  /\ Types.incidentsLast24h
       (Store.calculateStats Overview.length_as_time 86400001
          [Overview.sample (js "aa") true; Overview.sample (js "b") false])
     = Types.incidentsLast24h
         (Store.calculateStats Overview.length_as_time 86400001
            [Overview.sample (js "b") false; Overview.sample (js "aa") true]).
Proof.
  assert (Hp : Permutation
                 [Overview.sample (js "aa") true;
                  Overview.sample (js "b") false]
                 [Overview.sample (js "b") false;
                  Overview.sample (js "aa") true])
    by apply perm_swap.
  split; [exact Hp|].
  exact (proj1 (window_count_ignores_order Overview.length_as_time 86400001
                  _ _ Hp)).
Defined.

(** X17.  Fed with an answer of the incident listing, [fetchIncidents]
    keeps the number of successful repairs at or below the number of
    incidents; and the last check it shows, when the dates of the records
    are valid, is the date of a record that none of the others is newer
    than. *)
Theorem fetchIncidents_shows_newest
    (JSON_parse : jsstring -> option Types.FlashcardIncident)
    (Date_getTime : jsstring -> option Z) (file : option jsstring)
    (prev : Overview.MonitoringStatus) :
  Overview.successfulRepairs prev <= Overview.totalIncidents prev ->
  Overview.successfulRepairs
    (Overview.fetchIncidents
       (Store.incidents_GET JSON_parse Date_getTime file) prev)
  <= Overview.totalIncidents
       (Overview.fetchIncidents
          (Store.incidents_GET JSON_parse Date_getTime file) prev)
  /\ (Store.i_success (Store.incidents_GET JSON_parse Date_getTime file)
      = true ->
      (forall r,
          In r (Store.i_data
                  (Store.incidents_GET JSON_parse Date_getTime file)) ->
          Date_getTime (Types.detected_at r) <> None) ->
      forall date r,
        Overview.lastCheck
          (Overview.fetchIncidents
             (Store.incidents_GET JSON_parse Date_getTime file) prev)
        = Some date ->
        In r (Store.i_data
                (Store.incidents_GET JSON_parse Date_getTime file)) ->
        exists t, Date_getTime date = Some t
                  /\ (Overview.stamp Date_getTime r <= t)%Z).
Proof.
  intros Hprev. unfold Store.incidents_GET.
  destruct file as [fileContent|]; [|split; [exact Hprev|discriminate]].
  destruct (Store.parse_all JSON_parse (Store.record_lines fileContent))
    as [parsed|] eqn:Hp; [|split; [exact Hprev|discriminate]].
  unfold Overview.fetchIncidents.
  cbn [Store.i_success Store.i_data Store.i_count
       Overview.successfulRepairs Overview.totalIncidents
       Overview.lastCheck].
  split; [apply filter_length_le|].
  intros _ Hvalid date r.
  pose proof (sort_sorted Date_getTime parsed) as Hs.
  assert (Hv : forall y, In y parsed ->
                         Date_getTime (Types.detected_at y) <> None).
  { intros y Hy. apply Hvalid.
    now apply (Permutation_in _ (sort_perm Date_getTime parsed)). }
  specialize (Hs Hv).
  destruct (Store.sort_newest_first Date_getTime parsed) as [|first rest];
    [discriminate|].
  destruct (truthy (Types.detected_at first)); [|discriminate].
  intros [= <-] Hr.
  assert (Hf : Date_getTime (Types.detected_at first) <> None)
    by (apply Hvalid; now left).
  exists (Overview.stamp Date_getTime first). split.
  - unfold Overview.stamp.
    now destruct (Date_getTime (Types.detected_at first)).
  - destruct Hr as [<-|Hr]; [lia|].
    apply StronglySorted_inv in Hs as [_ Hall].
    rewrite Forall_forall in Hall. now apply Hall.
Qed.

Lemma fetchIncidents_shows_newest_witness :
  0 <= 0
  /\ Overview.lastCheck
       (Overview.fetchIncidents
          (Store.incidents_GET Overview.line_as_date Overview.length_as_time
             (Some (js "aa" ++ [LF] ++ js "bbbb" ++ [LF] ++ js "c")))
          {| Overview.isRunning := false; Overview.lastCheck := None;
             Overview.currentStatus := js "UNKNOWN";
             Overview.nextCheckIn := 0; Overview.totalIncidents := 0;
             Overview.successfulRepairs := 0 |})
     = Some (js "bbbb")
  /\ Overview.successfulRepairs
       (Overview.fetchIncidents
          (Store.incidents_GET Overview.line_as_date Overview.length_as_time
             (Some (js "aa" ++ [LF] ++ js "bbbb" ++ [LF] ++ js "c")))
          {| Overview.isRunning := false; Overview.lastCheck := None;
             Overview.currentStatus := js "UNKNOWN";
             Overview.nextCheckIn := 0; Overview.totalIncidents := 0;
             Overview.successfulRepairs := 0 |})
     <= 3.
Proof.
  split; [lia|]. split; [reflexivity|].
  exact (proj1
           (fetchIncidents_shows_newest Overview.line_as_date
              Overview.length_as_time
              (Some (js "aa" ++ [LF] ++ js "bbbb" ++ [LF] ++ js "c"))
              {| Overview.isRunning := false; Overview.lastCheck := None;
                 Overview.currentStatus := js "UNKNOWN";
                 Overview.nextCheckIn := 0; Overview.totalIncidents := 0;
                 Overview.successfulRepairs := 0 |}
              (le_n 0))).
Defined.


(** X19.  Whatever raw lines arrive and whenever, once the last has been
    classified and the timers have been left to fire, no timer is pending:
    every scheduled transition has taken place. *)
Theorem every_scenario_settles (lines : list (N * jsstring)) :
  Dashboard.timers (last (Dashboard.scenario lines) Dashboard.initial) = [].
Proof.
  unfold Dashboard.scenario. rewrite last_cons.
  apply run_settles. lia.
Qed.

